(** * starx rpc: the dispatch core of [rpc/server.go]

    A shallow embedding of the service registry, the method validator, the
    dispatcher and the response pool of the [rpc] package, together with the
    properties the specification states about them.

    Go strings are byte strings and are modelled by [string]; maps are
    [gmap]s; a pointer that may be [nil] is an [option]. The functions of the
    Go standard library the package calls ([reflect], [unicode],
    [unicode/utf8], [strings.Split]) are either modelled directly or, where
    only their result matters, taken as parameters of the development. *)

From Stdlib Require Import ZArith NArith List Ascii String Lia.
From Stdlib.Strings Require Import Byte.
From stdpp Require Import base tactics option list strings gmap pretty.

Open Scope string_scope.
Open Scope list_scope.
Open Scope nat_scope.

(** ** Reflection: kinds, types and values *)

(** [reflect.Kind]. *)
Inductive Kind : Set :=
  | Invalid | Bool | Int | Int8 | Int16 | Int32 | Int64
  | Uint | Uint8 | Uint16 | Uint32 | Uint64 | Uintptr
  | Float32 | Float64 | Complex64 | Complex128
  | Array | Chan | Func_ | Interface | Map | Ptr | Slice
  | String_ | Struct | UnsafePointer.

#[global] Instance Kind_eq_dec : EqDecision Kind.
Proof. solve_decision. Defined.

(** A reflected type. [Defined] is a defined or predeclared type (the latter
    have an empty package path); [PtrTo e] is the pointer type [*e];
    [Unnamed k lit] is any other type literal, of a kind [k] other than
    [Ptr], identified by its text. Two reflected types are the same Go type exactly when they are
    equal. *)
Inductive rtype : Set :=
  | Defined (pkgPath name : string) (underlying : rtype)
  | PtrTo (elem : rtype)
  | Unnamed (k : Kind) (lit : string).

#[global] Instance rtype_eq_dec : EqDecision rtype.
Proof. solve_decision. Defined.

(** [t.Kind()]. *)
Fixpoint rtype_Kind (t : rtype) : Kind :=
  match t with
  | Defined _ _ u => rtype_Kind u
  | PtrTo _ => Ptr
  | Unnamed k _ => k
  end.

(** [t.Elem()] for a type of pointer kind. *)
Fixpoint rtype_Elem (t : rtype) : option rtype :=
  match t with
  | Defined _ _ u => rtype_Elem u
  | PtrTo e => Some e
  | Unnamed _ _ => None
  end.

(** [t.Name()] and [t.PkgPath()]: empty for every type that is not defined. *)
Definition rtype_Name (t : rtype) : string :=
  match t with Defined _ n _ => n | _ => "" end.

Definition rtype_PkgPath (t : rtype) : string :=
  match t with Defined p _ _ => p | _ => "" end.

(** [var typeOfError = reflect.TypeOf(( *error)(nil)).Elem()] and
    [var typeOfBytes = reflect.TypeOf(([]byte)(nil))]. *)
Definition typeOfError : rtype :=
  Defined "" "error" (Unnamed Interface "interface { Error() string }").

Definition typeOfBytes : rtype := Unnamed Slice "[]uint8".

(** What a [reflect.Value] holds. A pointer carries the value it points to
    (this core never writes through one); [DOther] is any value the core only
    passes along. *)
Inductive Data : Set :=
  | DNil
  | DBool (b : bool)
  | DInt (z : Z)
  | DString (s : string)
  | DBytes (b : list byte)
  | DError (msg : string)
  | DOther (tag : N)
  | DPtr (pointee : Data).

(** [reflect.Value]; [Zero] is the zero Value, of kind [Invalid]. *)
Inductive Value : Set :=
  | Zero
  | Val (t : rtype) (d : Data).

(** An [interface{}] argument: [None] is the nil interface. *)
Definition iface : Set := option (rtype * Data).

Definition TypeOf (i : iface) : option rtype := fst <$> i.

Definition ValueOf (i : iface) : Value :=
  match i with
  | None => Zero
  | Some (t, d) => Val t d
  end.

Definition Value_Kind (v : Value) : Kind :=
  match v with
  | Zero => Invalid
  | Val t _ => rtype_Kind t
  end.

(** [v.Elem()] on a pointer: the zero Value for a nil pointer. *)
Definition Value_Elem (v : Value) : Value :=
  match v with
  | Val t (DPtr d) =>
      match rtype_Elem t with
      | Some e => Val e d
      | None => Zero
      end
  | _ => Zero
  end.

(** [reflect.Indirect]. *)
Definition Indirect (v : Value) : Value :=
  if decide (Value_Kind v = Ptr) then Value_Elem v else v.

(** ** Protocol types *)

(** [type RpcKind byte] and [type ResponseKind byte]. *)
Definition RpcKind : Set := N.
Definition SysRpc : RpcKind := 1%N.
Definition UserRpc : RpcKind := 2%N.

Definition ResponseKind : Set := N.
Definition HandlerResponse : ResponseKind := 1%N.
Definition HandlerPush : ResponseKind := 2%N.
Definition RemoteResponse : ResponseKind := 3%N.

(** A heap address of a pooled object; [None] is the nil pointer. *)
Definition loc : Set := positive.

Record Request : Set := mkRequest {
  req_ServiceMethod : string;
  req_Seq : N;
  req_Sid : N;
  req_Args : option (list byte);
  req_Kind : RpcKind;
  req_next : option loc
}.

Record Response : Set := mkResponse {
  resp_Kind : ResponseKind;
  resp_ServiceMethod : string;
  resp_Seq : N;
  resp_Sid : N;
  resp_Reply : option (list byte);
  resp_Error : string;
  resp_Route : string;
  resp_next : option loc
}.

(** [Response{}]: every field at its zero value. *)
Definition zeroResponse : Response :=
  mkResponse 0%N "" 0%N 0%N None "" "" None.

(** ** Observable actions

    The calls the package makes on its environment, in program order: the
    mutexes it takes and drops, what it prints, and the handlers it runs. *)

Inductive Mutex : Set :=
  | mu                            (* Server.mu *)
  | reqLock                       (* Server.reqLock *)
  | respLock                      (* Server.respLock *)
  | methodMutex (mname : string). (* the Mutex embedded in a methodType *)

Inductive Event : Set :=
  | EvLock (l : Mutex)
  | EvUnlock (l : Mutex)
  | EvRLock (l : Mutex)
  | EvRUnlock (l : Mutex)
  | EvLog (line : string)         (* package log *)
  | EvPrint (line : string)       (* fmt.Println *)
  | EvCall (mname : string) (args : list Value). (* reflect.Value.Call *)

(** The last byte of a string. *)
Fixpoint last_byte (s : string) : option ascii :=
  match s with
  | EmptyString => None
  | String c EmptyString => Some c
  | String _ s' => last_byte s'
  end.

(** A computation either returns or panics. *)
Inductive Outcome (A : Type) : Type :=
  | Done (a : A)
  | Panic (msg : string).

Arguments Done {A} a.
Arguments Panic {A} msg.

(** ** Methods and the runtime *)

(** The signature of a method, as [reflect.Method.Type] gives it: for a method
    of a concrete type the receiver is the first input. *)
Record FuncType : Set := mkFuncType {
  ins : list rtype;
  outs : list rtype
}.

Definition NumIn (ft : FuncType) : nat := length (ins ft).
Definition NumOut (ft : FuncType) : nat := length (outs ft).

(** What [reflect.Value.Call] does on a method's [Func]: it takes the inputs,
    may change the world (the state of everything outside this core), and
    returns the results or panics. *)
Definition Handler (World : Type) : Type :=
  list Value -> World -> Outcome (list Value) * World.

(** [reflect.Method]. *)
Record Method (World : Type) : Type := mkMethod {
  Method_Name : string;
  Method_PkgPath : string;
  Method_Type : FuncType;
  Method_Func : Handler World
}.

Arguments mkMethod {World} _ _ _ _.
Arguments Method_Name {World} _.
Arguments Method_PkgPath {World} _.
Arguments Method_Type {World} _.
Arguments Method_Func {World} _.

(** The part of the Go runtime and library the core relies on:
    [unicode.IsUpper], [utf8.DecodeRuneInString] (the rune and its width),
    [reflect.Type.String], and the method table of each type, [typ.Method(0)],
    ..., [typ.Method(typ.NumMethod() - 1)]. *)
Class GoRuntime (World : Type) : Type := {
  IsUpper : Z -> bool;
  DecodeRuneInString : string -> Z * Z;
  rtype_String : rtype -> string;
  Methods : rtype -> list (Method World)
}.

(** ** The core *)

Section Core.

Context `{RT : GoRuntime World}.

Record methodType : Type := mkMethodType {
  method : Method World;
  ArgType : option rtype;
  ReplyType : option rtype;
  numCalls : N
}.

Record service : Type := mkService {
  name : string;
  rcvr : Value;
  typ : rtype;
  method_ : gmap string (option methodType)
}.

(** [Server]. The three locks have no state of their own here: taking and
    dropping them is recorded as an [Event]. A nil [serviceMap] reads as the
    empty map. *)
Record Server : Type := mkServer {
  Server_Kind : RpcKind;
  serviceMap : gmap string (option service);
  freeReq : option loc;
  freeResp : option loc
}.

(** [NewServer]. *)
Definition NewServer (kind : RpcKind) : Server :=
  mkServer kind ∅ None None.

(** Is this an exported - upper case - name? *)
Definition isExported (name : string) : bool :=
  let '(rune, _) := DecodeRuneInString name in
  IsUpper rune.

(** The loop [for t.Kind() == reflect.Ptr { t = t.Elem() }], by recursion on
    the type; [stripPtr_loop] below is the loop's own equation. *)
Fixpoint stripPtr (t : rtype) : rtype :=
  match t with
  | PtrTo e => stripPtr e
  | Defined _ _ u =>
      match rtype_Elem u with
      | Some _ => stripPtr u
      | None => t
      end
  | Unnamed _ _ => t
  end.

(** Is this type exported or a builtin? *)
Definition isExportedOrBuiltinType (t : rtype) : bool :=
  let t := stripPtr t in
  isExported (rtype_Name t) || bool_decide (rtype_PkgPath t = "").

(** *** The validator *)

(** What the body of the validator's loop decides for one method: [Skip] is a
    [continue], with what was printed on the way. *)
Inductive Verdict : Type :=
  | Skip (evs : list Event)
  | Install (mt : methodType).

Definition report (reportErr : bool) (line : string) : list Event :=
  if reportErr then [EvLog line] else [].

(** The body of the loop for [kind == SysRpc]. *)
Definition sysMethod (reportErr : bool) (method : Method World) : Verdict :=
  let mtype := Method_Type method in
  let mname := Method_Name method in
  (* Method must be exported. *)
  if negb (bool_decide (Method_PkgPath method = "")) then Skip []
  else
  (* Method needs three ins: receiver, *args, *reply. *)
  match ins mtype with
  | [_; argType; replyType] =>
      if negb (isExportedOrBuiltinType argType) then
        Skip (report reportErr
                (mname +:+ " argument type not exported: " +:+ rtype_String argType))
      else if negb (bool_decide (rtype_Kind argType = Ptr)) then
        Skip (report reportErr
                ("method " +:+ mname +:+ " reply type not a pointer: "
                 +:+ rtype_String argType))
      else
      (* Reply type must be exported. *)
      if negb (isExportedOrBuiltinType replyType) then
        Skip (report reportErr
                ("method " +:+ mname +:+ " reply type not exported: "
                 +:+ rtype_String replyType))
      else
      (* Method needs one out. *)
      match outs mtype with
      | [returnType] =>
          (* The return type of the method must be error. *)
          if negb (bool_decide (returnType = typeOfError)) then
            Skip (report reportErr
                    ("method " +:+ mname +:+ " returns "
                     +:+ rtype_String returnType +:+ " not error"))
          else Install (mkMethodType method (Some argType) (Some replyType) 0%N)
      | _ =>
          Skip (report reportErr
                  ("method " +:+ mname +:+ " has wrong number of outs: "
                   +:+ pretty (NumOut mtype)))
      end
  | _ => Skip []
  end.

(** The body of the loop for [kind == UserRpc]. *)
Definition userMethod (reportErr : bool) (method : Method World) : Verdict :=
  let mtype := Method_Type method in
  let mname := Method_Name method in
  (* Method must be exported. *)
  if negb (bool_decide (Method_PkgPath method = "")) then Skip []
  else
  (* Method needs more than 1 parameter *)
  if (NumIn mtype <? 1)%nat then Skip []
  else
  (* Method needs two out, ([]byte, error). *)
  match outs mtype with
  | [returnType0; returnType1] =>
      if negb (bool_decide (returnType0 = typeOfBytes)) then
        Skip (EvPrint (rtype_String returnType0 +:+ " " +:+ rtype_String typeOfBytes)
              :: report reportErr
                   ("method " +:+ mname +:+ " returns "
                    +:+ rtype_String returnType0 +:+ " not error"))
      else if negb (bool_decide (returnType1 = typeOfError)) then
        Skip (report reportErr
                ("method " +:+ mname +:+ " returns "
                 +:+ rtype_String returnType1 +:+ " not error"))
      else Install (mkMethodType method None None 0%N)
  | _ =>
      Skip (report reportErr
              ("method " +:+ mname +:+ " has wrong number of outs: "
               +:+ pretty (NumOut mtype)))
  end.

(** One turn of the loop: [continue], or [methods[mname] = &methodType{...}]. *)
Definition visit (body : Method World -> Verdict)
    (acc : gmap string (option methodType) * list Event) (method : Method World)
    : gmap string (option methodType) * list Event :=
  match body method with
  | Skip evs => (acc.1, acc.2 ++ evs)
  | Install mt => (<[Method_Name method := Some mt]> acc.1, acc.2)
  end.

(** [suitableMethods] returns suitable Rpc methods of [typ], it will report
    error using log if [reportErr] is true. The second component is what it
    printed. *)
Definition suitableMethods (kind : RpcKind) (typ : rtype) (reportErr : bool)
    : gmap string (option methodType) * list Event :=
  if decide (kind = SysRpc) then
    foldl (visit (sysMethod reportErr)) (∅, []) (Methods typ)
  else if decide (kind = UserRpc) then
    foldl (visit (userMethod reportErr)) (∅, []) (Methods typ)
  else (∅, []).

(** *** Machine state and the execution monad *)

(** The state the core's operations run on: the server, the Go heap holding
    the pooled [Request] and [Response] objects, and the world the handlers
    act on. *)
Record Machine : Type := mkMachine {
  server : Server;
  requests : gmap loc Request;
  responses : gmap loc Response;
  world : World
}.

(** An operation takes a machine to an outcome, a machine and the actions it
    performed, in order. *)
Definition M (A : Type) : Type := Machine -> Outcome A * Machine * list Event.

Definition ret {A} (a : A) : M A := fun s => (Done a, s, []).

Definition bind {A B} (c : M A) (k : A -> M B) : M B := fun s =>
  match c s with
  | (Done a, s1, t1) => let '(o, s2, t2) := k a s1 in (o, s2, t1 ++ t2)
  | (Panic msg, s1, t1) => (Panic msg, s1, t1)
  end.

Notation "x <- c ;; k" := (bind c (fun x => k))
  (at level 100, c at next level, right associativity).
Notation "c ;; k" := (bind c (fun _ => k))
  (at level 100, right associativity).

Definition panic {A} (msg : string) : M A := fun s => (Panic msg, s, []).

Definition emit (e : Event) : M unit := fun s => (Done tt, s, [e]).

(** Events a pure function printed on its way. *)
Definition emitting {A} (r : A * list Event) : M A := fun s => (Done r.1, s, r.2).

(** [defer d] before [body]: [d] runs when [body] returns and when it
    panics. *)
Definition defer {A} (d : M unit) (body : M A) : M A := fun s =>
  let '(o, s1, t1) := body s in
  let '(_, s2, t2) := d s1 in
  (o, s2, t1 ++ t2).

Definition getServer : M Server := fun s => (Done (server s), s, []).

Definition setServer (srv : Server) : M unit := fun s =>
  (Done tt, mkMachine srv (requests s) (responses s) (world s), []).

(** [v.Type()]: panics on the zero Value. *)
Definition Value_Type (v : Value) : M rtype :=
  match v with
  | Zero => panic "reflect: call of reflect.Value.Type on zero Value"
  | Val t _ => ret t
  end.

Definition nilDeref : string :=
  "runtime error: invalid memory address or nil pointer dereference".

(** A method called on a [reflect.Type] that may be the nil interface. *)
Definition nonNil (t : option rtype) : M rtype :=
  match t with
  | None => panic nilDeref
  | Some t => ret t
  end.

(** [f.Call(args)] on the [Func] of [m]. *)
Definition Func_Call (m : Method World) (args : list Value) : M (list Value) :=
  fun s =>
    let '(o, w) := Method_Func m args (world s) in
    (o, mkMachine (server s) (requests s) (responses s) w,
     [EvCall (Method_Name m) args]).

(** *** Registration *)

Definition error : Set := string.

(** The four errors of registration and the three of dispatch, as the code
    spells them. *)
Definition EmptyServiceName (t : rtype) : error :=
  "rpc.Register: no service name for type " +:+ rtype_String t.

Definition NameNotExported (sname : string) : error :=
  "rpc.Register: type " +:+ sname +:+ " is not exported".

Definition DuplicateService (sname : string) : error :=
  "rpc: service already defined: " +:+ sname.

Definition NoSuitableMethods (sname : string) (hint : bool) : error :=
  if hint then
    "rpc.Register: type " +:+ sname +:+ " has no exported methods of suitable type (hint: pass a pointer to value of that type)"
  else
    "rpc.Register: type " +:+ sname +:+ " has no exported methods of suitable type".

Definition InvalidRouteFormat : error := "wrong route string".

Definition ServiceNotFound (sname : string) : error :=
  "rpc: " +:+ sname +:+ " do not exists".

Definition MethodNotFound (smethod : string) : error :=
  "rpc: " +:+ smethod +:+ " do not exists".

(** [register]; the result is the error, [None] for [nil]. *)
Definition register (rcvr : iface) (name : string) (useName : bool) : M (option error) :=
  emit (EvLock mu) ;;
  defer (emit (EvUnlock mu)) (
    srv <- getServer ;;
    let s_typ := TypeOf rcvr in
    let s_rcvr := ValueOf rcvr in
    t <- Value_Type (Indirect s_rcvr) ;;
    let sname := if useName then name else rtype_Name t in
    if decide (sname = "") then
      typ <- nonNil s_typ ;;
      let s := "rpc.Register: no service name for type " +:+ rtype_String typ in
      emit (EvLog s) ;;
      ret (Some s)
    else if negb (isExported sname) && negb useName then
      let s := "rpc.Register: type " +:+ sname +:+ " is not exported" in
      emit (EvLog s) ;;
      ret (Some s)
    else if decide (is_Some (serviceMap srv !! sname)) then
      ret (Some ("rpc: service already defined: " +:+ sname))
    else
      (* Install the methods *)
      typ <- nonNil s_typ ;;
      s_method <- emitting (suitableMethods (Server_Kind srv) typ true) ;;
      if decide (size s_method = 0) then
        (* To help the user, see if a pointer receiver would work. *)
        method <- emitting (suitableMethods (Server_Kind srv) (PtrTo typ) false) ;;
        let str :=
          if decide (size method ≠ 0) then
            "rpc.Register: type " +:+ sname +:+ " has no exported methods of suitable type (hint: pass a pointer to value of that type)"
          else
            "rpc.Register: type " +:+ sname +:+ " has no exported methods of suitable type" in
        emit (EvLog str) ;;
        ret (Some str)
      else
        setServer (mkServer (Server_Kind srv)
                     (<[sname := Some (mkService sname s_rcvr typ s_method)]>
                        (serviceMap srv))
                     (freeReq srv) (freeResp srv)) ;;
        ret None).

(** [Register] and [RegisterName]. *)
Definition Register (rcvr : iface) : M (option error) :=
  register rcvr "" false.

Definition RegisterName (name : string) (rcvr : iface) : M (option error) :=
  register rcvr name true.

(** [func (m *methodType) NumCalls() (n uint)]. *)
Definition NumCalls (m : methodType) : M N :=
  emit (EvLock (methodMutex (Method_Name (method m)))) ;;
  let n := numCalls m in
  emit (EvUnlock (methodMutex (Method_Name (method m)))) ;;
  ret n.

(** *** The object pool *)

Definition setRequests (h : gmap loc Request) : M unit := fun s =>
  (Done tt, mkMachine (server s) h (responses s) (world s), []).

Definition setResponses (h : gmap loc Response) : M unit := fun s =>
  (Done tt, mkMachine (server s) (requests s) h (world s), []).

Definition getRequests : M (gmap loc Request) := fun s => (Done (requests s), s, []).

Definition getResponses : M (gmap loc Response) := fun s => (Done (responses s), s, []).

(** [req.next = v]. *)
Definition Request_set_next (v : option loc) (r : Request) : Request :=
  mkRequest (req_ServiceMethod r) (req_Seq r) (req_Sid r) (req_Args r) (req_Kind r) v.

(** [resp.next = v]. *)
Definition Response_set_next (v : option loc) (r : Response) : Response :=
  mkResponse (resp_Kind r) (resp_ServiceMethod r) (resp_Seq r) (resp_Sid r)
    (resp_Reply r) (resp_Error r) (resp_Route r) v.

(** [freeRequest]. A nil [req] panics at [req.next], with the lock held. *)
Definition freeRequest (req : option loc) : M unit :=
  emit (EvLock reqLock) ;;
  srv <- getServer ;;
  match req with
  | None => panic nilDeref
  | Some p =>
      h <- getRequests ;;
      setRequests (alter (Request_set_next (freeReq srv)) p h) ;;
      setServer (mkServer (Server_Kind srv) (serviceMap srv) (Some p) (freeResp srv)) ;;
      emit (EvUnlock reqLock)
  end.

(** [getResponse]. [new(Response)] takes an address the heap does not use
    yet. *)
Definition getResponse : M loc :=
  emit (EvLock respLock) ;;
  srv <- getServer ;;
  h <- getResponses ;;
  resp <-
    match freeResp srv with
    | None =>
        let p := fresh (dom h) in
        setResponses (<[p := zeroResponse]> h) ;;
        ret p
    | Some p =>
        setServer (mkServer (Server_Kind srv) (serviceMap srv) (freeReq srv)
                     (h !! p ≫= resp_next)) ;;
        setResponses (<[p := zeroResponse]> h) ;;
        ret p
    end ;;
  emit (EvUnlock respLock) ;;
  ret resp.

(** [freeResponse]. *)
Definition freeResponse (resp : option loc) : M unit :=
  emit (EvLock respLock) ;;
  srv <- getServer ;;
  match resp with
  | None => panic nilDeref
  | Some p =>
      h <- getResponses ;;
      setResponses (alter (Response_set_next (freeResp srv)) p h) ;;
      setServer (mkServer (Server_Kind srv) (serviceMap srv) (freeReq srv) (Some p)) ;;
      emit (EvUnlock respLock)
  end.

(** *** Dispatch *)

(** [strings.Split(s, sep)] for a separator of one byte. *)
Fixpoint Split (s : string) (sep : ascii) : list string :=
  match s with
  | EmptyString => [""]
  | String c s' =>
      if decide (c = sep) then "" :: Split s' sep
      else
        match Split s' sep with
        | part :: parts => String c part :: parts
        | [] => [String c ""]
        end
  end.

(** [Call]; the result is the values returned and the error. The nil slice
    is the empty list. *)
Definition Call (serviceMethod : string) (args : list Value)
    : M (list Value * option error) :=
  let parts := Split serviceMethod "." in
  if decide (length parts ≠ 2) then
    ret ([], Some "wrong route string")
  else
    let sname := nth 0 parts "" in
    let smethod := nth 1 parts "" in
    srv <- getServer ;;
    match serviceMap srv !! sname with
    | Some (Some s) =>
        match method_ s !! smethod with
        | Some (Some m) =>
            let args := rcvr s :: args in
            rets <- Func_Call (method m) args ;;
            ret (rets, None)
        | _ => ret ([], Some ("rpc: " +:+ smethod +:+ " do not exists"))
        end
    | _ => ret ([], Some ("rpc: " +:+ sname +:+ " do not exists"))
    end.

End Core.

Arguments methodType : clear implicits.
Arguments service : clear implicits.
Arguments Server : clear implicits.
Arguments Machine : clear implicits.
Arguments Verdict : clear implicits.
Arguments M : clear implicits.

(** ** The vocabulary of the specification *)

Section Vocabulary.

Context `{RT : GoRuntime World}.

(** A validated method table accepts [m]: it binds the name of [m] to a
    descriptor of [m] itself. *)
Definition accepts (methods : gmap string (option (methodType World)))
    (m : Method World) : Prop :=
  exists mt, methods !! Method_Name m = Some (Some mt) /\ method mt = m.

(** The call shape of the Sys namespace: an exported method with exactly two
    parameters beyond the receiver, the first of an exported-or-builtin type
    of pointer kind, the second of an exported-or-builtin type, and exactly
    one return value, of type error. *)
Definition SysShape (m : Method World) : Prop :=
  Method_PkgPath m = "" /\
  exists receiver argType replyType,
    ins (Method_Type m) = [receiver; argType; replyType] /\
    isExportedOrBuiltinType argType = true /\
    rtype_Kind argType = Ptr /\
    isExportedOrBuiltinType replyType = true /\
    outs (Method_Type m) = [typeOfError].

(** What exported-or-builtin means, in the words of the contract and without
    the code's helper. The base of a type is what is left when pointers are
    removed for as long as the type has a pointee: the base of [**T] and of
    [type P *T] is the base of [T]. *)
Inductive baseOf : rtype -> rtype -> Prop :=
  | baseOf_here t : rtype_Elem t = None -> baseOf t t
  | baseOf_pointee t e base : rtype_Elem t = Some e -> baseOf e base -> baseOf t base.

(** A name is exported when its first rune is an upper case letter. *)
Definition ExportedName (name : string) : Prop :=
  IsUpper (DecodeRuneInString name).1 = true.

(** A type is exported-or-builtin when its base has an exported name or has
    no package path: a predeclared type such as [int] or [error], and an
    unnamed type such as [[]T] or [map[K]V] whatever its elements, have no
    package path and so pass; a defined type of a package passes by its name
    alone. *)
Definition ExportedOrBuiltin (t : rtype) : Prop :=
  exists base, baseOf t base /\
    (ExportedName (rtype_Name base) \/ rtype_PkgPath base = "").

(** The contract of the Sys namespace on one method, stated without the
    code's helpers: exported; exactly two parameters beyond the receiver; the
    first exported-or-builtin and of pointer kind; the second
    exported-or-builtin; exactly one return value, the error interface. *)
Definition SysContract (m : Method World) : Prop :=
  Method_PkgPath m = "" /\
  exists receiver argType replyType,
    ins (Method_Type m) = [receiver; argType; replyType] /\
    ExportedOrBuiltin argType /\
    rtype_Kind argType = Ptr /\
    ExportedOrBuiltin replyType /\
    outs (Method_Type m) = [typeOfError].

(** The call shape of the User namespace: an exported method with at least
    one parameter counting the receiver and exactly two return values, raw
    bytes and error. *)
Definition UserShape (m : Method World) : Prop :=
  Method_PkgPath m = "" /\
  1 <= NumIn (Method_Type m) /\
  outs (Method_Type m) = [typeOfBytes; typeOfError].

(** How many times the separator occurs in a route. *)
Fixpoint occurrences (sep : ascii) (s : string) : nat :=
  match s with
  | EmptyString => 0
  | String c s' => (if decide (c = sep) then 1 else 0) + occurrences sep s'
  end.

(** A service is registered under [sname]; a method of it is validated under
    [smethod]. *)
Definition registered (srv : Server World) (sname : string) (s : service World) : Prop :=
  serviceMap srv !! sname = Some (Some s).

Definition validated (s : service World) (smethod : string) (mt : methodType World) : Prop :=
  method_ s !! smethod = Some (Some mt).

(** The machine after a handler has left the world as [w]. *)
Definition withWorld (mach : Machine World) (w : World) : Machine World :=
  mkMachine (server mach) (requests mach) (responses mach) w.

(** The type whose name [register] derives the service name from:
    [reflect.Indirect(reflect.ValueOf(rcvr)).Type()]. There is none for the
    nil interface and for a nil pointer. *)
Definition concreteType (rcvr : iface) : option rtype :=
  match Indirect (ValueOf rcvr) with
  | Zero => None
  | Val t _ => Some t
  end.

(** The name a registration resolves to: the explicit name when one is
    given, the name of the receiver's concrete type otherwise. *)
Definition serviceName (t : rtype) (name : string) (useName : bool) : string :=
  if useName then name else rtype_Name t.

(** The checks of registration in the order the specification lists them;
    [ty] is the receiver's type and [t] its concrete type. *)
Definition registration (srv : Server World) (ty t : rtype)
    (name : string) (useName : bool) : option error :=
  let sname := serviceName t name useName in
  if decide (sname = "") then Some (EmptyServiceName ty)
  else if negb useName && negb (isExported sname) then Some (NameNotExported sname)
  else if decide (is_Some (serviceMap srv !! sname)) then Some (DuplicateService sname)
  else if decide (size (suitableMethods (Server_Kind srv) ty true).1 = 0) then
    Some (NoSuitableMethods sname
            (bool_decide (size (suitableMethods (Server_Kind srv) (PtrTo ty) false).1 ≠ 0)))
  else None.

(** A property of every descriptor of the registry, given the type of its
    service and the name it is bound to. *)
Definition descriptors (P : rtype -> string -> methodType World -> Prop)
    (srv : Server World) : Prop :=
  forall sname (s : service World) smethod (mt : methodType World),
    registered srv sname s -> validated s smethod mt ->
    name s = sname /\ P (typ s) smethod mt.

(** An action that takes the mutex [l], for writing or for reading. *)
Definition takes (l : Mutex) (e : Event) : Prop :=
  e = EvLock l \/ e = EvRLock l.

(** The operations of the core, and the machine each leaves behind, whether
    it returned or panicked. *)
Inductive Op : Type :=
  | OpRegister (rcvr : iface) (name : string) (useName : bool)
  | OpCall (serviceMethod : string) (args : list Value)
  | OpNumCalls (mt : methodType World)
  | OpFreeRequest (req : option loc)
  | OpGetResponse
  | OpFreeResponse (resp : option loc).

Definition after (op : Op) (mach : Machine World) : Machine World :=
  match op with
  | OpRegister rcvr name useName => (register rcvr name useName mach).1.2
  | OpCall serviceMethod args => (Call serviceMethod args mach).1.2
  | OpNumCalls mt => (NumCalls mt mach).1.2
  | OpFreeRequest req => (freeRequest req mach).1.2
  | OpGetResponse => (getResponse mach).1.2
  | OpFreeResponse resp => (freeResponse resp mach).1.2
  end.

(** The machines a server made by [NewServer] can be in: any heap and any
    world to begin with, then any operations in any order. *)
Inductive reachable : Machine World -> Prop :=
  | reachable_new kind reqs resps w :
      reachable (mkMachine (NewServer kind) reqs resps w)
  | reachable_after op mach :
      reachable mach -> reachable (after op mach).

End Vocabulary.

(** ** A program to run the model on

    Two receivers with pointer methods, one for each namespace. The world is
    the number of handler runs so far. Names are in ASCII, where the first
    byte of a name is its first rune. *)

Definition asciiIsUpper (r : Z) : bool := (65 <=? r)%Z && (r <=? 90)%Z.

Definition asciiDecodeRune (s : string) : Z * Z :=
  match s with
  | EmptyString => (65533, 0)%Z
  | String c _ =>
      let r := Z.of_N (N_of_ascii c) in
      if (r <? 128)%Z then (r, 1%Z) else (65533, 1)%Z
  end.

Fixpoint typeText (t : rtype) : string :=
  match t with
  | Defined p n _ => if decide (p = "") then n else p +:+ "." +:+ n
  | PtrTo e => "*" +:+ typeText e
  | Unnamed _ lit => lit
  end.

Definition emptyStruct : rtype := Unnamed Struct "struct {}".
Definition intT : rtype := Defined "" "int" (Unnamed Int "int").
Definition stringT : rtype := Defined "" "string" (Unnamed String_ "string").
Definition EchoT : rtype := Defined "main" "Echo" emptyStruct.
Definition ArithT : rtype := Defined "main" "Arith" emptyStruct.
Definition ArgsT : rtype := Defined "main" "Args" emptyStruct.
Definition ReplyT : rtype := Defined "main" "Reply" emptyStruct.
Definition hiddenT : rtype := Defined "main" "hidden" emptyStruct.

Definition nilError : Value := Val typeOfError DNil.

Definition wrongArgs : string := "reflect: Call with wrong number of input arguments".

(** [func (e *Echo) Echo(payload []byte) ([]byte, error) { return payload, nil }] *)
Definition echo : Handler nat := fun args w =>
  match args with
  | [_; payload] => (Done [payload; nilError], S w)
  | _ => (Panic wrongArgs, w)
  end.

Definition Echo_Echo : Method nat :=
  mkMethod "Echo" "" (mkFuncType [PtrTo EchoT; typeOfBytes] [typeOfBytes; typeOfError]) echo.

(** [func (e *Echo) Text(s string) (string, error) { return s, nil }] *)
Definition Echo_Text : Method nat :=
  mkMethod "Text" "" (mkFuncType [PtrTo EchoT; stringT] [stringT; typeOfError]) echo.

(** A Sys handler that does nothing and returns a nil error. *)
Definition nop : Handler nat := fun args w =>
  match args with
  | [_; _; _] => (Done [nilError], S w)
  | _ => (Panic wrongArgs, w)
  end.

Definition arith (mname : string) (arg reply : rtype) (outs : list rtype) : Method nat :=
  mkMethod mname "" (mkFuncType [PtrTo ArithT; arg; reply] outs) nop.

Definition Arith_Add : Method nat := arith "Add" (PtrTo ArgsT) (PtrTo ReplyT) [typeOfError].
Definition Arith_Count : Method nat := arith "Count" (PtrTo ArgsT) (PtrTo ReplyT) [intT].
Definition Arith_Hidden : Method nat := arith "Hidden" (PtrTo hiddenT) (PtrTo ReplyT) [typeOfError].
Definition Arith_Loose : Method nat := arith "Loose" (PtrTo ArgsT) ReplyT [typeOfError].
Definition Arith_Value : Method nat := arith "Value" ArgsT (PtrTo ReplyT) [typeOfError].

Definition programMethods (t : rtype) : list (Method nat) :=
  if decide (t = PtrTo EchoT) then [Echo_Echo; Echo_Text]
  else if decide (t = PtrTo ArithT) then
    [Arith_Add; Arith_Count; Arith_Hidden; Arith_Loose; Arith_Value]
  else [].

#[global] Instance program : GoRuntime nat := {|
  IsUpper := asciiIsUpper;
  DecodeRuneInString := asciiDecodeRune;
  rtype_String := typeText;
  Methods := programMethods
|}.

(** [&Echo{}], [Echo{}] and [&Arith{}]. *)
Definition echoPtr : iface := Some (PtrTo EchoT, DPtr (DOther 0)).
Definition echoValue : iface := Some (EchoT, DOther 0).
Definition arithPtr : iface := Some (PtrTo ArithT, DPtr (DOther 0)).

(** A fresh server of each namespace, with an empty heap. *)
Definition userMachine : Machine nat := mkMachine (NewServer UserRpc) ∅ ∅ 0.
Definition sysMachine : Machine nat := mkMachine (NewServer SysRpc) ∅ ∅ 0.

(** [UserRpcServer.Register(&Echo{})] and, under a dotted name,
    [UserRpcServer.RegisterName("a.b", &Echo{})]. *)
Definition echoMachine : Machine nat := (Register echoPtr userMachine).1.2.
Definition dottedMachine : Machine nat := (RegisterName "a.b" echoPtr userMachine).1.2.

(** What that registration stores: the service and the descriptor of its one
    accepted method. *)
Definition echoDescriptor : methodType nat := mkMethodType Echo_Echo None None 0%N.

Definition echoService : service nat :=
  mkService "Echo" (ValueOf echoPtr) (PtrTo EchoT) {["Echo" := Some echoDescriptor]}.

(** A response that has been used, alone in the heap of a fresh server. *)
Definition used : Response :=
  mkResponse HandlerResponse "Echo.Echo" 7%N 42%N (Some [x68; x69]%byte) "boom" "" None.

Definition usedMachine : Machine nat :=
  mkMachine (NewServer UserRpc) ∅ {[1%positive := used]} 0.

(** [[]byte("hi")] and any other payload. *)
Definition bytes (payload : list byte) : Value := Val typeOfBytes (DBytes payload).
Definition hi : Value := bytes [x68; x69]%byte.

(** ** The rest of the package *)

(** *** Rendering the kinds *)

(** [strconv.Itoa] on a value that is not negative. *)
Definition Itoa (n : N) : string := pretty n.

(** [var rpcResponseKindNames = []string{HandlerResponse: ..., HandlerPush: ...,
    RemoteResponse: ...}]: index 0 holds the empty string. *)
Definition rpcResponseKindNames : list string :=
  [""; "HandlerResponse"; "HandlerPush"; "RemoteResponse"].

(** [func (k ResponseKind) String() string] *)
Definition ResponseKind_String (k : ResponseKind) : string :=
  if N.to_nat k <? length rpcResponseKindNames then
    nth (N.to_nat k) rpcResponseKindNames ""
  else Itoa k.

(** [var rpcKindNames = []string{SysRpc: "SysRpc", UserRpc: "UserRpc"}] *)
Definition rpcKindNames : list string := [""; "SysRpc"; "UserRpc"].

(** [func (k RpcKind) String() string] *)
Definition RpcKind_String (k : RpcKind) : string :=
  if N.to_nat k <? length rpcKindNames then nth (N.to_nat k) rpcKindNames ""
  else Itoa k.

(** The values of a byte. *)
Definition byteValues : list N := N.of_nat <$> seq 0 256.

(** No value of a byte from [from] on is written in decimal as one of
    [names]. *)
Definition noDecimal (names : list string) (from : N) : bool :=
  forallb (fun k => (k <? from)%N || forallb (fun nm => negb (String.eqb nm (Itoa k))) names)
    byteValues.

(** *** Free lists, locks and the registry as a whole *)

#[global] Instance Mutex_eq_dec : EqDecision Mutex.
Proof. solve_decision. Defined.

(** The free list of responses that starts at [head], read along [next]. *)
Inductive respList (h : gmap loc Response) : option loc -> list loc -> Prop :=
  | respList_nil : respList h None []
  | respList_cons p r l :
      h !! p = Some r -> respList h (resp_next r) l -> respList h (Some p) (p :: l).

(** The free list of requests that starts at [head]. *)
Inductive reqList (h : gmap loc Request) : option loc -> list loc -> Prop :=
  | reqList_nil : reqList h None []
  | reqList_cons p r l :
      h !! p = Some r -> reqList h (req_next r) l -> reqList h (Some p) (p :: l).

(** An action that only prints: a line of the log, or a line on standard
    output. *)
Definition prints (e : Event) : Prop :=
  match e with
  | EvLog _ | EvPrint _ => True
  | _ => False
  end.

Definition printsOut (e : Event) : Prop :=
  match e with
  | EvPrint _ => True
  | _ => False
  end.

(** How many times more [l] was taken than dropped along a trace. *)
Fixpoint balance (l : Mutex) (tr : list Event) : Z :=
  match tr with
  | [] => 0
  | EvLock l' :: tr' => (if decide (l' = l) then 1 else 0) + balance l tr'
  | EvUnlock l' :: tr' => (if decide (l' = l) then -1 else 0) + balance l tr'
  | _ :: tr' => balance l tr'
  end%Z.

Section Whole.

Context `{RT : GoRuntime World}.

(** The actions of an operation, and whether it returned. *)
Definition actions (op : Op) (mach : Machine World) : list Event :=
  match op with
  | OpRegister rcvr name useName => (register rcvr name useName mach).2
  | OpCall serviceMethod args => (Call serviceMethod args mach).2
  | OpNumCalls mt => (NumCalls mt mach).2
  | OpFreeRequest req => (freeRequest req mach).2
  | OpGetResponse => (getResponse mach).2
  | OpFreeResponse resp => (freeResponse resp mach).2
  end.

Definition returned {A} (o : Outcome A) : bool :=
  match o with
  | Done _ => true
  | Panic _ => false
  end.

Definition returns (op : Op) (mach : Machine World) : bool :=
  match op with
  | OpRegister rcvr name useName => returned (register rcvr name useName mach).1.1
  | OpCall serviceMethod args => returned (Call serviceMethod args mach).1.1
  | OpNumCalls mt => returned (NumCalls mt mach).1.1
  | OpFreeRequest req => returned (freeRequest req mach).1.1
  | OpGetResponse => returned (getResponse mach).1.1
  | OpFreeResponse resp => returned (freeResponse resp mach).1.1
  end.

(** What [register] leaves in the registry for a service: it is stored under
    its own name, which is not empty; its receiver has the type recorded; its
    methods are what the validator of the server's namespace finds on that
    type, and there is at least one. *)
Definition wellRegistered (srv : Server World) (sname : string) (s : service World) : Prop :=
  name s = sname /\
  sname ≠ "" /\
  (exists d, rcvr s = Val (typ s) d) /\
  method_ s = (suitableMethods (Server_Kind srv) (typ s) true).1 /\
  size (method_ s) ≠ 0.

(** Every entry of the registry is a service that is well registered, never a
    nil pointer. *)
Definition soundRegistry (srv : Server World) : Prop :=
  forall sname v, serviceMap srv !! sname = Some v ->
    exists s, v = Some s /\ wellRegistered srv sname s.

(** A turn of the validator's loop decides the same with and without
    reporting. *)
Definition sameVerdict (a b : Verdict World) : Prop :=
  match a, b with
  | Install mt, Install mt' => mt = mt'
  | Skip _, Skip _ => True
  | _, _ => False
  end.

(** What a turn of the validator's loop prints. *)
Definition printed (v : Verdict World) : list Event :=
  match v with
  | Skip evs => evs
  | Install _ => []
  end.

(** What the User namespace writes to standard output for one method, read
    off the conditions of the loop and not off its body: an exported method
    with at least one parameter and exactly two results, the first of which
    is not [[]byte], has that result type and [[]byte] written on one line,
    as [fmt.Println(returnType, typeOfBytes)] does; no other method has
    anything written. *)
Definition userStdout (m : Method World) : list Event :=
  match outs (Method_Type m) with
  | [returnType; _] =>
      if decide (Method_PkgPath m = "" /\ 1 <= NumIn (Method_Type m) /\
                 returnType ≠ typeOfBytes)
      then [EvPrint (rtype_String returnType +:+ " " +:+ rtype_String typeOfBytes)]
      else []
  | _ => []
  end.

(** The machine a successful registration leaves. *)
Definition installed (mach : Machine World) (sname : string) (v : Value) (ty : rtype)
    : Machine World :=
  mkMachine
    (mkServer (Server_Kind (server mach))
       (<[sname := Some (mkService sname v ty
                           (suitableMethods (Server_Kind (server mach)) ty true).1)]>
          (serviceMap (server mach)))
       (freeReq (server mach)) (freeResp (server mach)))
    (requests mach) (responses mach) (world mach).

(** What the outcome of a handler becomes as the outcome of [Call]. *)
Definition dispatched (o : Outcome (list Value)) : Outcome (list Value * option error) :=
  match o with
  | Done rets => Done (rets, None)
  | Panic msg => Panic msg
  end.

(** The call shape of the namespace [kind]. *)
Definition Shape (kind : RpcKind) (m : Method World) : Prop :=
  (kind = SysRpc /\ SysShape m) \/ (kind = UserRpc /\ UserShape m).

End Whole.

(** A defined pointer type with an unexported name, [type handle *Args]. *)
Definition handleT : rtype := Defined "main" "handle" (PtrTo ArgsT).

(** A server of no namespace, [NewServer(0)]. *)
Definition noKindMachine : Machine nat := mkMachine (NewServer 0%N) ∅ ∅ 0.

(** A request that has been used, alone in the heap of a fresh server. *)
Definition usedRequest : Request :=
  mkRequest "Echo.Echo" 7%N 42%N (Some [x68; x69]%byte) UserRpc None.

Definition requestMachine : Machine nat :=
  mkMachine (NewServer UserRpc) {[1%positive := usedRequest]} ∅ 0.

(** ** Properties *)

Section Properties.

Context `{RT : GoRuntime World}.

Implicit Types (m : Method World) (mt : methodType World) (typ : rtype).
Implicit Types (mach : Machine World) (srv : Server World).

(** The loop of [isExportedOrBuiltinType], one turn at a time. *)
Lemma rtype_Elem_Kind t e : rtype_Elem t = Some e -> rtype_Kind t = Ptr.
Proof. induction t; simpl; intros; eauto; discriminate. Qed.

Lemma stripPtr_loop t :
  stripPtr t =
    if decide (rtype_Kind t = Ptr) then
      match rtype_Elem t with
      | Some e => stripPtr e
      | None => t
      end
    else t.
Proof.
  induction t as [p n u IH | e IH | k lit]; simpl.
  - destruct (rtype_Elem u) as [e|] eqn:He.
    + rewrite IH, decide_True by eauto using rtype_Elem_Kind.
      by rewrite decide_True by eauto using rtype_Elem_Kind.
    + by destruct (decide _).
  - done.
  - by destruct (decide _).
Qed.

(** *** The validator's loop *)

Lemma visit_other (body : Method World -> Verdict World) l acc nm :
  nm ∉ Method_Name <$> l ->
  (foldl (visit body) acc l).1 !! nm = acc.1 !! nm.
Proof.
  revert acc. induction l as [|x l IH]; intros acc Hnm; [done|].
  rewrite fmap_cons, not_elem_of_cons in Hnm. destruct Hnm as [Hx Hl].
  simpl. rewrite IH by done. unfold visit.
  destruct (body x); simpl; [done|]. by rewrite lookup_insert_ne.
Qed.

Lemma visit_lookup (body : Method World -> Verdict World) l acc m :
  NoDup (Method_Name <$> l) -> m ∈ l ->
  (foldl (visit body) acc l).1 !! Method_Name m =
    match body m with
    | Install mt => Some (Some mt)
    | Skip _ => acc.1 !! Method_Name m
    end.
Proof.
  revert acc. induction l as [|x l IH]; intros acc Hnd Hin.
  - by apply elem_of_nil in Hin.
  - rewrite fmap_cons, NoDup_cons in Hnd. destruct Hnd as [Hx Hnd].
    apply elem_of_cons in Hin as [->|Hin]; simpl.
    + rewrite visit_other by done. unfold visit.
      destruct (body x); simpl; [done|]. by rewrite lookup_insert_eq.
    + rewrite IH by done. destruct (body m); [|done].
      assert (Method_Name x ≠ Method_Name m) as Hne.
      { intros Heq. apply Hx. rewrite Heq. by apply list_elem_of_fmap_2. }
      unfold visit. destruct (body x); simpl; [done|]. by rewrite lookup_insert_ne.
Qed.

Lemma sysMethod_Install reportErr m mt :
  sysMethod reportErr m = Install mt ->
  SysShape m /\ method mt = m.
Proof.
  unfold sysMethod, SysShape. intros H.
  repeat case_match; simplify_eq; try discriminate.
  repeat match goal with
         | H : negb _ = false |- _ => apply negb_false_iff in H
         | H : bool_decide _ = true |- _ => apply bool_decide_eq_true in H
         end.
  subst. split; [|done]. split; [done|]. eauto 10.
Qed.

Lemma sysMethod_SysShape reportErr m :
  SysShape m -> exists mt, sysMethod reportErr m = Install mt.
Proof.
  intros (Hpkg & r & a & b & Hins & Ha & Hk & Hb & Houts).
  unfold sysMethod. rewrite Hpkg, Hins, Houts, Ha, Hb.
  rewrite !bool_decide_eq_true_2 by done. simpl. eauto.
Qed.

Lemma userMethod_Install reportErr m mt :
  userMethod reportErr m = Install mt ->
  UserShape m /\ method mt = m.
Proof.
  unfold userMethod, UserShape. intros H.
  repeat case_match; simplify_eq; try discriminate.
  repeat match goal with
         | H : negb _ = false |- _ => apply negb_false_iff in H
         | H : bool_decide _ = true |- _ => apply bool_decide_eq_true in H
         | H : (_ <? _) = false |- _ => apply Nat.ltb_ge in H
         end.
  by subst.
Qed.

Lemma userMethod_UserShape reportErr m :
  UserShape m -> exists mt, userMethod reportErr m = Install mt.
Proof.
  intros (Hpkg & Hin & Houts).
  unfold userMethod. rewrite Hpkg, Houts.
  apply Nat.ltb_ge in Hin. rewrite Hin.
  rewrite !bool_decide_eq_true_2 by done. simpl. eauto.
Qed.

Lemma accepts_foldl (body : Method World -> Verdict World) l m :
  NoDup (Method_Name <$> l) -> m ∈ l ->
  (forall mt, body m = Install mt -> method mt = m) ->
  accepts (foldl (visit body) (∅, []) l).1 m <-> exists mt, body m = Install mt.
Proof.
  intros Hnd Hin Hbody. unfold accepts. rewrite visit_lookup by done.
  destruct (body m) as [evs|mt] eqn:Hb; simpl.
  - rewrite lookup_empty. split; intros [? H]; [by destruct H | done].
  - split; [eauto|]. intros _. exists mt. eauto.
Qed.

(** The base of a type is what the loop of [isExportedOrBuiltinType] ends
    on. *)
Lemma baseOf_stripPtr t : baseOf t (stripPtr t).
Proof.
  induction t as [p n u IH | e IH | k lit]; simpl.
  - destruct (rtype_Elem u) as [e|] eqn:He; [|by apply baseOf_here].
    inversion IH as [? Hnone | ? e' ? He' Hbase]; subst; [congruence|].
    apply (baseOf_pointee _ e); [done|]. congruence.
  - by apply (baseOf_pointee _ e).
  - by apply baseOf_here.
Qed.

Lemma baseOf_unique t base : baseOf t base -> base = stripPtr t.
Proof.
  induction 1 as [t Hnone | t e base He _ IH]; rewrite (stripPtr_loop t).
  - rewrite Hnone. by destruct (decide _).
  - by rewrite He, decide_True by eauto using rtype_Elem_Kind.
Qed.

Lemma isExported_ExportedName nm : isExported nm = true <-> ExportedName nm.
Proof. unfold isExported, ExportedName. by destruct (DecodeRuneInString nm). Qed.

(** The helper of the code decides exported-or-builtin. *)
Lemma isExportedOrBuiltinType_spec t :
  isExportedOrBuiltinType t = true <-> ExportedOrBuiltin t.
Proof.
  unfold isExportedOrBuiltinType, ExportedOrBuiltin.
  rewrite orb_true_iff, isExported_ExportedName, bool_decide_eq_true. split.
  - intros H. exists (stripPtr t). split; [apply baseOf_stripPtr | done].
  - intros (base & Hbase & H). by rewrite <- (baseOf_unique _ _ Hbase).
Qed.

Lemma SysShape_SysContract m : SysShape m <-> SysContract m.
Proof.
  unfold SysShape, SysContract. split.
  - intros (Hpkg & r & a & b & Hins & Ha & Hk & Hb & Houts).
    split; [done|]. exists r, a, b.
    by rewrite <- !isExportedOrBuiltinType_spec.
  - intros (Hpkg & r & a & b & Hins & Ha & Hk & Hb & Houts).
    split; [done|]. exists r, a, b.
    by rewrite !isExportedOrBuiltinType_spec.
Qed.

(** C1. In the Sys namespace the validator accepts a method of the reflected
    type exactly when the method is exported, takes exactly two parameters
    beyond the receiver, the first of an exported-or-builtin type of pointer
    kind and the second of an exported-or-builtin type (a pointer or not), and
    returns exactly one value, of type error. Exported-or-builtin is
    [ExportedOrBuiltin], stated on the base of the type and not through the
    code's helper. Each condition that fails rejects the method by itself: a
    method that is not exported, one that does not take two parameters beyond
    the receiver, one whose argument is not exported-or-builtin (its base is
    a defined type of a package with an unexported name) or not of pointer
    kind, one whose reply is not exported-or-builtin, and one that does not
    return exactly error. *)
Theorem sys_validator_accepts typ reportErr m :
  NoDup (Method_Name <$> Methods typ) ->
  m ∈ Methods typ ->
  (accepts (suitableMethods SysRpc typ reportErr).1 m <-> SysContract m) /\
  (Method_PkgPath m ≠ "" -> ~ accepts (suitableMethods SysRpc typ reportErr).1 m) /\
  (length (ins (Method_Type m)) ≠ 3 ->
   ~ accepts (suitableMethods SysRpc typ reportErr).1 m) /\
  (forall receiver argType replyType,
     ins (Method_Type m) = [receiver; argType; replyType] ->
     (forall base, baseOf argType base ->
        ~ ExportedName (rtype_Name base) /\ rtype_PkgPath base ≠ "") \/
     rtype_Kind argType ≠ Ptr \/
     (forall base, baseOf replyType base ->
        ~ ExportedName (rtype_Name base) /\ rtype_PkgPath base ≠ "") ->
     ~ accepts (suitableMethods SysRpc typ reportErr).1 m) /\
  (outs (Method_Type m) ≠ [typeOfError] ->
   ~ accepts (suitableMethods SysRpc typ reportErr).1 m).
Proof.
  intros Hnd Hin.
  assert (accepts (suitableMethods SysRpc typ reportErr).1 m <-> SysContract m) as Hiff.
  { rewrite <- SysShape_SysContract.
    unfold suitableMethods. rewrite decide_True by done.
    rewrite accepts_foldl; eauto.
    - split; [|apply sysMethod_SysShape].
      intros [mt Hmt]. by apply sysMethod_Install in Hmt as [? _].
    - intros mt Hmt. by apply sysMethod_Install in Hmt as [_ ?]. }
  split; [done|].
  split; [intros Hpkg Hacc; by apply Hiff in Hacc as (? & _)|].
  split.
  { intros Hlen Hacc. apply Hiff in Hacc as (_ & r & a & b & Hins & _).
    by rewrite Hins in Hlen. }
  split; [|intros Houts Hacc; by apply Hiff in Hacc as (_ & r & a & b & _ & _ & _ & _ & ?)].
  intros receiver argType replyType Hins Hbad Hacc.
  apply Hiff in Hacc
    as (_ & r & a & b & Hins' & (ba & Hba & Ha) & Hk & (bb & Hbb & Hb) & _).
  rewrite Hins in Hins'. simplify_eq.
  destruct Hbad as [Hbad | [Hbad | Hbad]]; [|done|].
  - destruct (Hbad ba Hba) as [Hname Hpkg]. by destruct Ha.
  - destruct (Hbad bb Hbb) as [Hname Hpkg]. by destruct Hb.
Qed.

(** C2. In the User namespace the validator accepts a method of the reflected
    type exactly when the method is exported, has at least one parameter
    counting the receiver, and returns exactly two values, the first of the
    raw byte-sequence type and the second of type error. *)
Theorem user_validator_accepts typ reportErr m :
  NoDup (Method_Name <$> Methods typ) ->
  m ∈ Methods typ ->
  (accepts (suitableMethods UserRpc typ reportErr).1 m <-> UserShape m) /\
  (ins (Method_Type m) ≠ [] ->
   (accepts (suitableMethods UserRpc typ reportErr).1 m <->
    Method_PkgPath m = "" /\ outs (Method_Type m) = [typeOfBytes; typeOfError])) /\
  (forall ret0, ret0 ≠ typeOfBytes ->
     outs (Method_Type m) = [ret0; typeOfError] ->
     ~ accepts (suitableMethods UserRpc typ reportErr).1 m).
Proof.
  intros Hnd Hin.
  assert (accepts (suitableMethods UserRpc typ reportErr).1 m <-> UserShape m) as Hiff.
  { unfold suitableMethods. rewrite decide_False by done.
    rewrite decide_True by done. rewrite accepts_foldl; eauto.
    - split; [|apply userMethod_UserShape].
      intros [mt Hmt]. by apply userMethod_Install in Hmt as [? _].
    - intros mt Hmt. by apply userMethod_Install in Hmt as [_ ?]. }
  split; [done|]. split.
  - intros Hne. rewrite Hiff. unfold UserShape, NumIn.
    destruct (ins (Method_Type m)); [done|]. simpl. intuition lia.
  - intros ret0 Hret Houts. rewrite Hiff. intros (_ & _ & Houts').
    congruence.
Qed.

(** *** The errors are told apart by their text *)

Lemma append_nonempty a b : b ≠ "" -> a +:+ b ≠ "".
Proof. destruct a; [done|]. intros _. unfold String.append. discriminate. Qed.

Lemma last_byte_app a b : b ≠ "" -> last_byte (a +:+ b) = last_byte b.
Proof.
  intros Hb. induction a as [|c a IH]; [done|].
  change (String c a +:+ b) with (String c (a +:+ b)).
  pose proof (append_nonempty a b Hb) as Hne.
  simpl. rewrite IH. by destruct (a +:+ b).
Qed.

(** Two texts that differ within their fixed prefixes. *)
Ltac differ_in_prefix :=
  let H := fresh in
  intros H; cbv beta iota zeta delta [String.append] in H; simplify_eq.

Lemma last_byte_NameNotExported n : last_byte (NameNotExported n) = Some "d"%char.
Proof.
  unfold NameNotExported.
  rewrite last_byte_app by (by apply append_nonempty).
  by rewrite last_byte_app.
Qed.

Lemma last_byte_NoSuitableMethods n hint :
  last_byte (NoSuitableMethods n hint) = Some (if hint then ")"%char else "e"%char).
Proof.
  unfold NoSuitableMethods.
  destruct hint; rewrite last_byte_app by (by apply append_nonempty);
    by rewrite last_byte_app.
Qed.

Lemma EmptyServiceName_NameNotExported t n : EmptyServiceName t ≠ NameNotExported n.
Proof. unfold EmptyServiceName, NameNotExported. differ_in_prefix. Qed.

Lemma EmptyServiceName_DuplicateService t n : EmptyServiceName t ≠ DuplicateService n.
Proof. unfold EmptyServiceName, DuplicateService. differ_in_prefix. Qed.

Lemma EmptyServiceName_NoSuitableMethods t n hint :
  EmptyServiceName t ≠ NoSuitableMethods n hint.
Proof. unfold EmptyServiceName, NoSuitableMethods. destruct hint; differ_in_prefix. Qed.

Lemma NameNotExported_DuplicateService n n' : NameNotExported n ≠ DuplicateService n'.
Proof. unfold NameNotExported, DuplicateService. differ_in_prefix. Qed.

Lemma NameNotExported_NoSuitableMethods n n' hint :
  NameNotExported n ≠ NoSuitableMethods n' hint.
Proof.
  intros H. apply (f_equal last_byte) in H.
  rewrite last_byte_NameNotExported, last_byte_NoSuitableMethods in H.
  by destruct hint.
Qed.

Lemma DuplicateService_NoSuitableMethods n n' hint :
  DuplicateService n ≠ NoSuitableMethods n' hint.
Proof. unfold DuplicateService, NoSuitableMethods. destruct hint; differ_in_prefix. Qed.

Lemma NoSuitableMethods_hint n n' hint hint' :
  NoSuitableMethods n hint = NoSuitableMethods n' hint' -> hint = hint'.
Proof.
  intros H. apply (f_equal last_byte) in H.
  rewrite !last_byte_NoSuitableMethods in H.
  by destruct hint, hint'.
Qed.

Lemma InvalidRouteFormat_ServiceNotFound n : InvalidRouteFormat ≠ ServiceNotFound n.
Proof. unfold InvalidRouteFormat, ServiceNotFound. differ_in_prefix. Qed.

(** *** Registration *)

(** [register] on a receiver whose concrete type can be read, run to its end. *)
Lemma register_run mach ty d t d' name useName :
  Indirect (Val ty d) = Val t d' ->
  register (Some (ty, d)) name useName mach =
    let sname := serviceName t name useName in
    let srv := server mach in
    if decide (sname = "") then
      (Done (Some (EmptyServiceName ty)), mach,
       [EvLock mu; EvLog (EmptyServiceName ty); EvUnlock mu])
    else if negb useName && negb (isExported sname) then
      (Done (Some (NameNotExported sname)), mach,
       [EvLock mu; EvLog (NameNotExported sname); EvUnlock mu])
    else if decide (is_Some (serviceMap srv !! sname)) then
      (Done (Some (DuplicateService sname)), mach, [EvLock mu; EvUnlock mu])
    else
      let found := suitableMethods (Server_Kind srv) ty true in
      if decide (size found.1 = 0) then
        let viaPtr := suitableMethods (Server_Kind srv) (PtrTo ty) false in
        let e := NoSuitableMethods sname (bool_decide (size viaPtr.1 ≠ 0)) in
        (Done (Some e), mach,
         EvLock mu :: found.2 ++ viaPtr.2 ++ [EvLog e; EvUnlock mu])
      else
        (Done None,
         mkMachine
           (mkServer (Server_Kind srv)
              (<[sname := Some (mkService sname (Val ty d) ty found.1)]> (serviceMap srv))
              (freeReq srv) (freeResp srv))
           (requests mach) (responses mach) (world mach),
         EvLock mu :: found.2 ++ [EvUnlock mu]).
Proof.
  intros Hind.
  unfold register, bind, defer, emit, getServer, setServer, Value_Type, nonNil,
    emitting, ret, serviceName. simpl.
  rewrite Hind. simpl.
  destruct (decide ((if useName then name else rtype_Name t) = "")) as [He|He]; [done|].
  rewrite andb_comm.
  destruct (negb useName && negb (isExported _)) eqn:Hx; [done|].
  destruct (decide (is_Some _)) as [Hp|Hp]; [done|].
  destruct (suitableMethods (Server_Kind (server mach)) ty true) as [found evs] eqn:Hf.
  simpl.
  destruct (decide (size found = 0)) as [Hz|Hz].
  - destruct (suitableMethods (Server_Kind (server mach)) (PtrTo ty) false) as [viaPtr evs'].
    simpl. unfold NoSuitableMethods.
    destruct (decide (size viaPtr ≠ 0)).
    + rewrite bool_decide_eq_true_2 by done. by rewrite <- !app_assoc.
    + rewrite bool_decide_eq_false_2 by done. by rewrite <- !app_assoc.
  - simpl. by rewrite app_nil_r.
Qed.

(** On the nil interface and on a nil pointer [register] panics at
    [reflect.Indirect(s.rcvr).Type()], before any check. *)
Lemma register_panics mach rcvr name useName :
  concreteType rcvr = None ->
  register rcvr name useName mach =
    (Panic "reflect: call of reflect.Value.Type on zero Value", mach,
     [EvLock mu; EvUnlock mu]).
Proof.
  unfold concreteType. intros Hc.
  unfold register, bind, defer, emit, getServer, Value_Type, panic. simpl.
  by destruct (Indirect (ValueOf rcvr)).
Qed.

Ltac error_clash :=
  match goal with
  | H : _ = _ |- _ =>
      exfalso;
      first
        [ eapply EmptyServiceName_NameNotExported; first [exact H | symmetry; exact H]
        | eapply EmptyServiceName_DuplicateService; first [exact H | symmetry; exact H]
        | eapply EmptyServiceName_NoSuitableMethods; first [exact H | symmetry; exact H]
        | eapply NameNotExported_DuplicateService; first [exact H | symmetry; exact H]
        | eapply NameNotExported_NoSuitableMethods; first [exact H | symmetry; exact H]
        | eapply DuplicateService_NoSuitableMethods; first [exact H | symmetry; exact H] ]
  end.


(** The five ways through [registration]. *)
Lemma registration_cases srv ty t name useName :
  let sname := serviceName t name useName in
  let found := (suitableMethods (Server_Kind srv) ty true).1 in
  let viaPtr := (suitableMethods (Server_Kind srv) (PtrTo ty) false).1 in
  (sname = "" /\ registration srv ty t name useName = Some (EmptyServiceName ty)) \/
  (sname ≠ "" /\ useName = false /\ isExported sname = false /\
   registration srv ty t name useName = Some (NameNotExported sname)) \/
  (sname ≠ "" /\ (useName = true \/ isExported sname = true) /\
   is_Some (serviceMap srv !! sname) /\
   registration srv ty t name useName = Some (DuplicateService sname)) \/
  (sname ≠ "" /\ (useName = true \/ isExported sname = true) /\
   serviceMap srv !! sname = None /\ size found = 0 /\
   registration srv ty t name useName =
     Some (NoSuitableMethods sname (bool_decide (size viaPtr ≠ 0)))) \/
  (sname ≠ "" /\ (useName = true \/ isExported sname = true) /\
   serviceMap srv !! sname = None /\ size found ≠ 0 /\
   registration srv ty t name useName = None).
Proof.
  simpl. unfold registration.
  set (sname := serviceName t name useName).
  destruct (decide (sname = "")) as [He|He]; [by left|]. right.
  destruct (negb useName && negb (isExported sname)) eqn:Hx.
  { apply andb_true_iff in Hx as [Hu Hx]. apply negb_true_iff in Hu, Hx. by left. }
  right.
  assert (useName = true \/ isExported sname = true) as Hpass.
  { destruct useName; [by left|]. destruct (isExported sname); [by right|done]. }
  destruct (decide (is_Some (serviceMap srv !! sname))) as [Hp|Hp]; [by left|]. right.
  apply eq_None_not_Some in Hp.
  destruct (decide (size _ = 0)) as [Hz|Hz]; [by left | by right].
Qed.

(** C3, for a receiver whose concrete type can be read (neither the nil
    interface nor a nil pointer). [register] returns what the checks of the
    specification give, applied in their order: EmptyServiceName exactly when
    the resolved name is empty; NameNotExported exactly when, the name being
    non-empty, no explicit name was given and the derived name is not
    exported; DuplicateService exactly when, these two having passed, the
    name is already in the registry; NoSuitableMethods exactly when, these
    three having passed, the validator finds no method on the receiver's
    type, and then with the pointer-receiver hint exactly when the validator
    finds a method on the pointer to that type; and no error otherwise. *)
Theorem register_checks mach ty d t name useName :
  concreteType (Some (ty, d)) = Some t ->
  let sname := serviceName t name useName in
  let srv := server mach in
  let found := (suitableMethods (Server_Kind srv) ty true).1 in
  let viaPtr := (suitableMethods (Server_Kind srv) (PtrTo ty) false).1 in
  let passed := sname ≠ "" /\ (useName = true \/ isExported sname = true) in
  let err := (register (Some (ty, d)) name useName mach).1.1 in
  err = Done (registration srv ty t name useName) /\
  ((exists T, err = Done (Some (EmptyServiceName T))) <-> sname = "") /\
  ((exists n, err = Done (Some (NameNotExported n))) <->
     sname ≠ "" /\ useName = false /\ isExported sname = false) /\
  ((exists n, err = Done (Some (DuplicateService n))) <->
     passed /\ is_Some (serviceMap srv !! sname)) /\
  (forall hint,
     (exists n, err = Done (Some (NoSuitableMethods n hint))) <->
       passed /\ serviceMap srv !! sname = None /\ size found = 0 /\
       (hint = true <-> size viaPtr ≠ 0)) /\
  (err = Done None <->
     passed /\ serviceMap srv !! sname = None /\ size found ≠ 0).
Proof.
  unfold concreteType. cbv zeta. simpl ValueOf. intros Hc.
  destruct (Indirect (Val ty d)) as [|t' d'] eqn:Hind; simplify_eq.
  rewrite (register_run _ _ _ _ _ _ _ Hind).
  assert ((let sname := serviceName t name useName in
           let srv := server mach in _) .1.1
          = Done (registration (server mach) ty t name useName)) as ->.
  { cbv zeta. unfold registration. by repeat case_match. }
  split; [done|].
  pose proof (registration_cases (server mach) ty t name useName) as Hcases.
  cbv zeta in Hcases.
  destruct Hcases
    as [(He & ->) | [(He & Hu & Hx & ->) | [(He & Hpass & Hp & ->) |
         [(He & Hpass & Hp & Hz & ->) | (He & Hpass & Hp & Hz & ->)]]]].
  - (* no name *)
    split; [split; [done | eauto]|].
    split; [split; [intros [n Hn]; simplify_eq; error_clash | intros (? & _); done]|].
    split; [split; [intros [n Hn]; simplify_eq; error_clash | intros ((? & _) & _); done]|].
    split; [intros hint; split;
            [intros [n Hn]; simplify_eq; error_clash | intros ((? & _) & _); done]|].
    split; [done | intros ((? & _) & _); done].
  - (* not exported *)
    split; [split; [intros [n Hn]; simplify_eq; error_clash | done]|].
    split; [split; [done | eauto]|].
    split; [split; [intros [n Hn]; simplify_eq; error_clash
                   | intros ((_ & [?|?]) & _); congruence]|].
    split; [intros hint; split;
            [intros [n Hn]; simplify_eq; error_clash
            | intros ((_ & [?|?]) & _); congruence]|].
    split; [done | intros ((_ & [?|?]) & _); congruence].
  - (* duplicate *)
    split; [split; [intros [n Hn]; simplify_eq; error_clash | done]|].
    split; [split; [intros [n Hn]; simplify_eq; error_clash
                   | intros (_ & ? & ?); destruct Hpass; congruence]|].
    split; [split; [done | eauto]|].
    split; [intros hint; split;
            [intros [n Hn]; simplify_eq; error_clash
            | intros (_ & Hn & _); rewrite Hn in Hp; by destruct Hp]|].
    split; [done | intros (_ & Hn & _); rewrite Hn in Hp; by destruct Hp].
  - (* no suitable methods *)
    split; [split; [intros [n Hn]; simplify_eq; error_clash | done]|].
    split; [split; [intros [n Hn]; simplify_eq; error_clash
                   | intros (_ & ? & ?); destruct Hpass; congruence]|].
    split; [split; [intros [n Hn]; simplify_eq; error_clash
                   | intros (_ & Hs); rewrite Hp in Hs; by destruct Hs]|].
    split; [|split; [done | intros (_ & _ & ?); done]].
    intros hint; split.
    + intros [n Hn]. simplify_eq. apply NoSuitableMethods_hint in Hn. subst hint.
      rewrite bool_decide_eq_true. done.
    + intros (_ & _ & _ & Hh). eexists. do 3 f_equal.
      destruct hint.
      * apply bool_decide_eq_true_2. by apply Hh.
      * apply bool_decide_eq_false_2. intros Hn. by apply Hh in Hn.
  - (* registered *)
    split; [split; [intros [n Hn]; simplify_eq | done]|].
    split; [split; [intros [n Hn]; simplify_eq
                   | intros (_ & ? & ?); destruct Hpass; congruence]|].
    split; [split; [intros [n Hn]; simplify_eq
                   | intros (_ & Hs); rewrite Hp in Hs; by destruct Hs]|].
    split; [intros hint; split; [intros [n Hn]; simplify_eq | intros (_ & _ & ? & _); done]|].
    done.
Qed.

Lemma concreteType_Some rcvr t :
  concreteType rcvr = Some t ->
  exists ty d d', rcvr = Some (ty, d) /\ Indirect (Val ty d) = Val t d'.
Proof.
  unfold concreteType. destruct rcvr as [[ty d]|]; simpl; [|done].
  destruct (Indirect (Val ty d)) eqn:E; [done|]. intros; simplify_eq. eauto.
Qed.

(** Unless it returns [nil], [register] leaves the machine as it found it. *)
Lemma register_frame mach rcvr name useName o mach' tr :
  register rcvr name useName mach = (o, mach', tr) ->
  o ≠ Done None -> mach' = mach.
Proof.
  intros Hreg Ho.
  destruct (concreteType rcvr) as [t|] eqn:Hc.
  - apply concreteType_Some in Hc as (ty & d & d' & -> & Hind).
    rewrite (register_run _ _ _ _ _ _ _ Hind) in Hreg. cbv zeta in Hreg.
    repeat case_match; by simplify_eq.
  - rewrite register_panics in Hreg by done. by simplify_eq.
Qed.

(** C7. Whenever [register] returns an error the machine, and with it the
    service map, is exactly as it was before the call: every service that was
    queryable under a name still is, with the same receiver and the same
    methods. *)
Theorem register_error_keeps_registry mach rcvr name useName e mach' tr :
  register rcvr name useName mach = (Done (Some e), mach', tr) ->
  mach' = mach /\
  serviceMap (server mach') = serviceMap (server mach) /\
  forall sname s, registered (server mach) sname s -> registered (server mach') sname s.
Proof.
  intros Hreg. apply register_frame in Hreg; [|done]. by subst.
Qed.

(** *** Dispatch *)

Lemma Split_length s sep : length (Split s sep) = S (occurrences sep s).
Proof.
  induction s as [|c s IH]; [done|]. simpl.
  destruct (decide (c = sep)); simpl; [by rewrite IH|].
  destruct (Split s sep); simpl in *; [done | lia].
Qed.

Lemma Split_none s sep : occurrences sep s = 0 -> Split s sep = [s].
Proof.
  induction s as [|c s IH]; [done|]. simpl.
  destruct (decide (c = sep)); [done|]. simpl. intros H. by rewrite IH.
Qed.

Lemma Split_app a b sep :
  occurrences sep a = 0 -> Split (a +:+ String sep b) sep = a :: Split b sep.
Proof.
  induction a as [|c a IH].
  - intros _. change ("" +:+ String sep b) with (String sep b).
    simpl. by rewrite decide_True.
  - change (String c a +:+ String sep b) with (String c (a +:+ String sep b)).
    simpl. destruct (decide (c = sep)); [done|]. simpl. intros H. by rewrite IH.
Qed.

Lemma Split_route sname smethod :
  occurrences "." sname = 0 -> occurrences "." smethod = 0 ->
  Split (sname +:+ "." +:+ smethod) "." = [sname; smethod].
Proof.
  intros Hs Hm. change ("." +:+ smethod) with (String "." smethod).
  by rewrite Split_app, Split_none.
Qed.

(** [Call], run to its end. *)
Lemma Call_run route args mach :
  Call route args mach =
    match Split route "." with
    | [sname; smethod] =>
        match (serviceMap (server mach) !! sname : option (option (service World))) with
        | Some (Some s) =>
            match (method_ s !! smethod : option (option (methodType World))) with
            | Some (Some m) =>
                let '(o, w) := Method_Func (method m) (rcvr s :: args) (world mach) in
                (match o with
                 | Done rets => Done (rets, None)
                 | Panic msg => Panic msg
                 end,
                 withWorld mach w,
                 [EvCall (Method_Name (method m)) (rcvr s :: args)])
            | _ => (Done ([], Some (MethodNotFound smethod)), mach, [])
            end
        | _ => (Done ([], Some (ServiceNotFound sname)), mach, [])
        end
    | _ => (Done ([], Some InvalidRouteFormat), mach, [])
    end.
Proof.
  unfold Call.
  destruct (Split route ".") as [|sname [|smethod [|x parts]]]; simpl; try done.
  unfold bind, getServer, Func_Call, ret. simpl.
  destruct (serviceMap (server mach) !! sname) as [[s|]|]; try done.
  destruct (method_ s !! smethod) as [[m|]|]; try done.
  destruct (Method_Func _ _ _) as [[rets|msg] w]; done.
Qed.
Lemma InvalidRouteFormat_MethodNotFound n : InvalidRouteFormat ≠ MethodNotFound n.
Proof. apply InvalidRouteFormat_ServiceNotFound. Qed.

(** C4, as the code has it. [Call] fails with InvalidRouteFormat exactly when
    splitting the route on the separator does not give exactly two segments,
    that is when the route does not hold exactly one separator: a route
    without a separator and a route with two or more fail so, before any
    lookup and without running anything. Whether a segment is empty is not
    looked at. *)
Theorem Call_route_format route args mach :
  ((Call route args mach).1.1 = Done ([], Some InvalidRouteFormat) <->
     length (Split route ".") ≠ 2) /\
  (length (Split route ".") ≠ 2 <-> occurrences "." route ≠ 1) /\
  (occurrences "." route = 0 ->
     Call route args mach = (Done ([], Some InvalidRouteFormat), mach, [])) /\
  (2 <= occurrences "." route ->
     Call route args mach = (Done ([], Some InvalidRouteFormat), mach, [])).
Proof.
  assert (length (Split route ".") ≠ 2 ->
          Call route args mach = (Done ([], Some InvalidRouteFormat), mach, [])) as Hbad.
  { intros Hlen. rewrite Call_run.
    by destruct (Split route ".") as [|sname [|smethod [|x parts]]]. }
  pose proof (Split_length route ".") as Hlen.
  split; [split|split; [lia|split]].
  - intros Hcall Hsplit. rewrite Call_run in Hcall.
    destruct (Split route ".") as [|sname [|smethod [|x parts]]]; try done.
    destruct (serviceMap (server mach) !! sname) as [[s|]|]; simpl in Hcall;
      try (simplify_eq; by eapply InvalidRouteFormat_ServiceNotFound).
    destruct (method_ s !! smethod) as [[m|]|]; simpl in Hcall;
      try (simplify_eq; by eapply InvalidRouteFormat_MethodNotFound).
    destruct (Method_Func _ _ _) as [[rets|msg] w]; simpl in Hcall; by simplify_eq.
  - intros Hsplit. by rewrite Hbad.
  - intros Hocc. apply Hbad. lia.
  - intros Hocc. apply Hbad. lia.
Qed.

(** C5. For a well-formed route "S.M": when no service is registered under S,
    [Call] returns no results and the ServiceNotFound error; when S is
    registered and has no validated method M, it returns no results and the
    MethodNotFound error. In both cases nothing is run and the machine, and
    with it the registry, is unchanged. *)
Theorem Call_not_found mach sname smethod args :
  occurrences "." sname = 0 ->
  occurrences "." smethod = 0 ->
  ((forall s, ~ registered (server mach) sname s) ->
   Call (sname +:+ "." +:+ smethod) args mach =
     (Done ([], Some (ServiceNotFound sname)), mach, [])) /\
  (forall s, registered (server mach) sname s ->
     (forall mt, ~ validated s smethod mt) ->
     Call (sname +:+ "." +:+ smethod) args mach =
       (Done ([], Some (MethodNotFound smethod)), mach, [])).
Proof.
  intros Hs Hm. rewrite Call_run, Split_route by done. split.
  - intros Hno. unfold registered in Hno.
    destruct (serviceMap (server mach) !! sname) as [[s|]|]; try done.
    by destruct (Hno s).
  - intros s Hreg Hno. unfold registered, validated in *. rewrite Hreg.
    destruct (method_ s !! smethod) as [[mt|]|]; try done.
    by destruct (Hno mt).
Qed.

(** What [Call] does on a registered service and a validated method. *)
Lemma Call_found mach sname smethod s mt args :
  registered (server mach) sname s ->
  validated s smethod mt ->
  occurrences "." sname = 0 ->
  occurrences "." smethod = 0 ->
  Call (sname +:+ "." +:+ smethod) args mach =
    let '(o, w) := Method_Func (method mt) (rcvr s :: args) (world mach) in
    (match o with
     | Done rets => Done (rets, None)
     | Panic msg => Panic msg
     end,
     withWorld mach w,
     [EvCall (Method_Name (method mt)) (rcvr s :: args)]).
Proof.
  intros Hreg Hval Hs Hm. unfold registered, validated in *.
  by rewrite Call_run, Split_route, Hreg, Hval.
Qed.

(** C6, for a service whose name holds no separator. [Call] on "S.M" runs the
    handler bound to M exactly once, on the receiver followed by the
    arguments in their order, and leaves the world as that one run left it;
    when the run returns, [Call] returns its results as they are, with a nil
    error, and when it panics so does [Call]. *)
Theorem Call_dispatches mach sname smethod s mt args :
  registered (server mach) sname s ->
  validated s smethod mt ->
  occurrences "." sname = 0 ->
  occurrences "." smethod = 0 ->
  let ran := Method_Func (method mt) (rcvr s :: args) (world mach) in
  let called := Call (sname +:+ "." +:+ smethod) args mach in
  called.2 = [EvCall (Method_Name (method mt)) (rcvr s :: args)] /\
  called.1.2 = withWorld mach ran.2 /\
  (forall rets, ran.1 = Done rets -> called.1.1 = Done (rets, None)) /\
  (forall msg, ran.1 = Panic msg -> called.1.1 = Panic msg).
Proof.
  intros Hreg Hval Hs Hm. cbv zeta.
  rewrite (Call_found _ _ _ _ _ _ Hreg Hval Hs Hm).
  destruct (Method_Func _ _ _) as [o w]; simpl.
  repeat split; by intros ? ->.
Qed.

(** *** The response pool *)

(** [getResponse], run to its end. *)
Lemma getResponse_run mach :
  getResponse mach =
    let srv := server mach in
    let h := responses mach in
    match freeResp srv with
    | None =>
        let p := fresh (dom h) in
        (Done p,
         mkMachine srv (requests mach) (<[p := zeroResponse]> h) (world mach),
         [EvLock respLock; EvUnlock respLock])
    | Some p =>
        (Done p,
         mkMachine
           (mkServer (Server_Kind srv) (serviceMap srv) (freeReq srv)
              (h !! p ≫= resp_next))
           (requests mach) (<[p := zeroResponse]> h) (world mach),
         [EvLock respLock; EvUnlock respLock])
    end.
Proof.
  unfold getResponse, bind, emit, getServer, getResponses, setResponses,
    setServer, ret. simpl.
  destruct (freeResp (server mach)); simpl; [done|].
  by destruct mach as [[] ? ? ?].
Qed.

(** [freeResponse] on a pointer that is not nil, run to its end. *)
Lemma freeResponse_run mach p :
  freeResponse (Some p) mach =
    let srv := server mach in
    (Done tt,
     mkMachine
       (mkServer (Server_Kind srv) (serviceMap srv) (freeReq srv) (Some p))
       (requests mach)
       (alter (Response_set_next (freeResp srv)) p (responses mach))
       (world mach),
     [EvLock respLock; EvUnlock respLock]).
Proof. done. Qed.

(** C8. The object [getResponse] returns has every field at its zero value,
    whether it was just allocated or taken from the free list, and no other
    object of the heap is touched. After [freeResponse] of an object the next
    [getResponse] returns that same object, zeroed, and the free list is back
    to what it was. *)
Theorem getResponse_zeroed mach :
  (exists p mach',
     getResponse mach = (Done p, mach', [EvLock respLock; EvUnlock respLock]) /\
     responses mach' !! p = Some zeroResponse /\
     (forall q, q ≠ p -> responses mach' !! q = responses mach !! q) /\
     (freeResp (server mach) = None -> responses mach !! p = None) /\
     (forall x, freeResp (server mach) = Some x -> p = x)) /\
  (forall x, exists mach1 mach2,
     freeResponse (Some x) mach = (Done tt, mach1, [EvLock respLock; EvUnlock respLock]) /\
     getResponse mach1 = (Done x, mach2, [EvLock respLock; EvUnlock respLock]) /\
     responses mach2 !! x = Some zeroResponse /\
     (is_Some (responses mach !! x) ->
      freeResp (server mach2) = freeResp (server mach))).
Proof.
  split.
  - rewrite getResponse_run. cbv zeta.
    destruct (freeResp (server mach)) as [x|] eqn:Hfree.
    + eexists _, _. split; [done|]. simpl.
      split; [apply lookup_insert_eq|].
      split; [intros q Hq; by apply lookup_insert_ne|].
      split; [done|]. by intros ? [= ->].
    + eexists _, _. split; [done|]. simpl.
      split; [apply lookup_insert_eq|].
      split; [intros q Hq; by apply lookup_insert_ne|].
      split; [|done]. intros _. apply not_elem_of_dom, is_fresh.
  - intros x. rewrite freeResponse_run. cbv zeta.
    eexists _, _. split; [done|]. rewrite getResponse_run. simpl.
    split; [done|]. split; [apply lookup_insert_eq|].
    intros [r Hr]. rewrite lookup_alter_eq, Hr. done.
Qed.

(** *** Locks *)

(** [register] holds the write lock from its first action to its last,
    whatever it is given and however it ends. *)
Lemma register_locks mach rcvr name useName :
  exists between,
    (register rcvr name useName mach).2 = EvLock mu :: between ++ [EvUnlock mu].
Proof.
  destruct (concreteType rcvr) as [t|] eqn:Hc.
  - apply concreteType_Some in Hc as (ty & d & d' & -> & Hind).
    rewrite (register_run _ _ _ _ _ _ _ Hind). cbv zeta.
    destruct (decide _); [by eexists [_]|].
    destruct (_ && _); [by eexists [_]|].
    destruct (decide _); [by exists []|].
    destruct (decide _); [|by eexists].
    cbn [snd].
    match goal with
    | |- exists between, _ :: ?a ++ ?b ++ [?e; _] = _ => exists (a ++ b ++ [e])
    end.
    by rewrite <- !app_assoc.
  - rewrite register_panics by done. by exists [].
Qed.

(** [Call] takes no lock: all it does on its environment is to run at most
    one handler. *)
Lemma Call_trace route args mach :
  (Call route args mach).2 = [] \/
  exists mname args', (Call route args mach).2 = [EvCall mname args'].
Proof.
  rewrite Call_run. repeat case_match; simpl; eauto.
Qed.

Lemma Call_takes_no_lock route args mach l :
  Forall (fun e => ~ takes l e) (Call route args mach).2.
Proof.
  destruct (Call_trace route args mach) as [-> | (mname & args' & ->)].
  - constructor.
  - repeat constructor. by intros [?|?].
Qed.

(** *** The call counter *)

Lemma visit_numCalls (body : Method World -> Verdict World) l acc :
  (forall m mt, body m = Install mt -> numCalls mt = 0%N) ->
  (forall nm mt, acc.1 !! nm = Some (Some mt) -> numCalls mt = 0%N) ->
  forall nm mt, (foldl (visit body) acc l).1 !! nm = Some (Some mt) -> numCalls mt = 0%N.
Proof.
  intros Hbody. revert acc. induction l as [|x l IH]; intros acc Hacc; [done|].
  simpl. apply IH. unfold visit. destruct (body x) as [evs|mt'] eqn:Hb; simpl; [done|].
  intros nm mt. rewrite lookup_insert. case_decide; [|by eauto].
  intros; simplify_eq. eauto.
Qed.

Lemma suitableMethods_numCalls kind typ reportErr nm mt :
  (suitableMethods kind typ reportErr).1 !! nm = Some (Some mt) -> numCalls mt = 0%N.
Proof.
  unfold suitableMethods. repeat case_decide; [| |by cbn [fst]; rewrite lookup_empty].
  - apply visit_numCalls; [|by intros ? ?; cbn [fst]; rewrite lookup_empty].
    intros m mt' Hm. unfold sysMethod in Hm. repeat case_match; by simplify_eq.
  - apply visit_numCalls; [|by intros ? ?; cbn [fst]; rewrite lookup_empty].
    intros m mt' Hm. unfold userMethod in Hm. repeat case_match; by simplify_eq.
Qed.

Lemma register_serviceMap mach rcvr name useName :
  serviceMap (server (register rcvr name useName mach).1.2) = serviceMap (server mach) \/
  exists sname v ty,
    serviceMap (server (register rcvr name useName mach).1.2) =
      <[sname := Some (mkService sname v ty
                         (suitableMethods (Server_Kind (server mach)) ty true).1)]>
        (serviceMap (server mach)).
Proof.
  destruct (concreteType rcvr) as [t|] eqn:Hc.
  - apply concreteType_Some in Hc as (ty & d & d' & -> & Hind).
    rewrite (register_run _ _ _ _ _ _ _ Hind). cbv zeta.
    repeat case_match; simpl; eauto.
  - rewrite register_panics by done. by left.
Qed.

(** What holds of every descriptor the validator makes holds of every
    descriptor of every machine the operations can reach. *)
Lemma after_descriptors (P : rtype -> string -> methodType World -> Prop) op mach :
  (forall kind typ reportErr nm mt,
     (suitableMethods kind typ reportErr).1 !! nm = Some (Some mt) -> P typ nm mt) ->
  descriptors P (server mach) -> descriptors P (server (after op mach)).
Proof.
  intros HP Hz. destruct op as [rcvr name useName|route args|mt|req| |resp]; simpl.
  - destruct (register_serviceMap mach rcvr name useName)
      as [Heq | (sname & v & ty & Heq)];
      intros sn s sm mt; unfold registered; rewrite Heq; [by apply Hz|].
    rewrite lookup_insert. case_decide; [|by apply Hz].
    intros [= <-]. unfold validated. simpl. eauto.
  - rewrite Call_run. repeat case_match; simpl; done.
  - done.
  - destruct req; simpl; done.
  - rewrite getResponse_run. cbv zeta. case_match; simpl; done.
  - destruct resp; simpl; done.
Qed.

Lemma reachable_descriptors (P : rtype -> string -> methodType World -> Prop) mach :
  (forall kind typ reportErr nm mt,
     (suitableMethods kind typ reportErr).1 !! nm = Some (Some mt) -> P typ nm mt) ->
  reachable mach -> descriptors P (server mach).
Proof.
  intros HP. induction 1 as [kind reqs resps w | op mach _ IH].
  - intros sname s smethod mt Hreg. unfold registered in Hreg. simpl in Hreg.
    by rewrite lookup_empty in Hreg.
  - by apply after_descriptors.
Qed.

Lemma visit_bound (body : Method World -> Verdict World) (all l : list (Method World)) acc :
  (forall m mt, body m = Install mt -> method mt = m) ->
  (forall m, m ∈ l -> m ∈ all) ->
  (forall nm mt, acc.1 !! nm = Some (Some mt) ->
     Method_Name (method mt) = nm /\ method mt ∈ all) ->
  forall nm mt, (foldl (visit body) acc l).1 !! nm = Some (Some mt) ->
    Method_Name (method mt) = nm /\ method mt ∈ all.
Proof.
  intros Hbody. revert acc. induction l as [|x l IH]; intros acc Hl Hacc; [done|].
  simpl. apply IH; [intros m Hm; apply Hl; by right|].
  unfold visit. destruct (body x) as [evs|mt'] eqn:Hb; simpl; [done|].
  intros nm mt. rewrite lookup_insert. case_decide; [|by eauto].
  intros; simplify_eq. rewrite (Hbody _ _ Hb). split; [done|]. apply Hl. by left.
Qed.

(** The validator binds a descriptor to the name of its own method, a method
    of the type it was given. *)
Lemma suitableMethods_bound kind typ reportErr nm mt :
  (suitableMethods kind typ reportErr).1 !! nm = Some (Some mt) ->
  Method_Name (method mt) = nm /\ method mt ∈ Methods typ.
Proof.
  unfold suitableMethods. repeat case_decide; [| |by cbn [fst]; rewrite lookup_empty].
  - apply visit_bound; [|done|by intros ? ?; cbn [fst]; rewrite lookup_empty].
    intros m mt' Hm. by apply sysMethod_Install in Hm as [_ ?].
  - apply visit_bound; [|done|by intros ? ?; cbn [fst]; rewrite lookup_empty].
    intros m mt' Hm. by apply userMethod_Install in Hm as [_ ?].
Qed.

(** On every machine the operations can reach, a service is stored under its
    own name and a descriptor under the name of its method, which is a method
    of the receiver's type: the handler [Call] runs for "S.M" is the method M
    of the receiver registered as S. *)
Lemma reachable_bound mach sname (s : service World) smethod mt :
  reachable mach ->
  registered (server mach) sname s ->
  validated s smethod mt ->
  name s = sname /\ Method_Name (method mt) = smethod /\ method mt ∈ Methods (typ s).
Proof.
  intros Hreach Hreg Hval.
  by eapply (reachable_descriptors
               (fun typ nm mt => Method_Name (method mt) = nm /\ method mt ∈ Methods typ)
               mach suitableMethods_bound Hreach).
Qed.

(** C10. No operation of the core changes a call counter: [Call] leaves the
    server, and so every descriptor, as it found it, whether it succeeds or
    fails; [NumCalls] reads the counter and changes nothing; and on every
    machine the operations can reach, [NumCalls] of every registered method
    is 0. *)
Theorem numCalls_inert mach sname (s : service World) smethod mt :
  reachable mach ->
  registered (server mach) sname s ->
  validated s smethod mt ->
  (forall route args, server (Call route args mach).1.2 = server mach) /\
  (forall mt', (NumCalls mt' mach).1.1 = Done (numCalls mt') /\
               (NumCalls mt' mach).1.2 = mach) /\
  (NumCalls mt mach).1.1 = Done 0%N.
Proof.
  intros Hreach Hreg Hval. split; [|split].
  - intros route args. rewrite Call_run. repeat case_match; simpl; done.
  - done.
  - simpl. f_equal.
    by eapply (reachable_descriptors (fun _ _ mt => numCalls mt = 0%N) mach
                 suitableMethods_numCalls Hreach).
Qed.

End Properties.

(** ** The program, run *)

Lemma program_NoDup typ : NoDup (Method_Name <$> Methods typ).
Proof.
  simpl. unfold programMethods.
  repeat case_decide; apply (bool_decide_unpack _); by vm_compute.
Qed.

(** The Sys validator on [*Arith]: [Add] is accepted, and so is [Loose],
    whose reply is not a pointer; a method that returns a non-error type, one
    whose argument type is not exported and one whose argument is not a
    pointer are rejected. *)
Example sys_validator_program :
  dom (suitableMethods SysRpc (PtrTo ArithT) true).1 = {["Add"; "Loose"]}.
Proof. by vm_compute. Qed.

(** The User validator on [*Echo]: [Echo] is accepted and [Text], which
    returns (string, error), is rejected. *)
Example user_validator_program :
  dom (suitableMethods UserRpc (PtrTo EchoT) true).1 = {["Echo"]}.
Proof. by vm_compute. Qed.

Lemma sys_validator_accepts_witness :
  NoDup (Method_Name <$> Methods (PtrTo ArithT)) /\
  Arith_Add ∈ Methods (PtrTo ArithT) /\
  (accepts (suitableMethods SysRpc (PtrTo ArithT) true).1 Arith_Add <->
   SysContract Arith_Add).
Proof.
  assert (NoDup (Method_Name <$> Methods (PtrTo ArithT))) as Hnd.
  { apply (bool_decide_unpack _). vm_compute. exact I. }
  assert (Arith_Add ∈ Methods (PtrTo ArithT)) as Hin.
  { simpl. unfold programMethods. simpl. apply list_elem_of_here. }
  split; [exact Hnd|]. split; [exact Hin|].
  exact (proj1 (sys_validator_accepts (PtrTo ArithT) true Arith_Add Hnd Hin)).
Defined.

(** What exported-or-builtin comes to on the types of the program: a pointer
    to an exported type and a slice of an unexported type pass, a pointer to
    an unexported type of a package does not. *)
Example ExportedOrBuiltin_program :
  ExportedOrBuiltin (PtrTo ArgsT) /\
  ExportedOrBuiltin (Unnamed Slice "[]main.hidden") /\
  ExportedOrBuiltin typeOfError /\
  ~ ExportedOrBuiltin (PtrTo hiddenT) /\
  SysContract Arith_Add /\ SysContract Arith_Loose /\
  ~ SysContract Arith_Hidden /\ ~ SysContract Arith_Count /\ ~ SysContract Arith_Value.
Proof.
  assert (forall t, ExportedOrBuiltin t <-> isExportedOrBuiltinType t = true) as Hspec.
  { intros t. symmetry. apply isExportedOrBuiltinType_spec. }
  assert (forall m, SysContract m <-> (exists mt, sysMethod true m = Install mt)) as Hc.
  { intros m. rewrite <- SysShape_SysContract. split; [apply sysMethod_SysShape|].
    intros [mt Hmt]. by apply sysMethod_Install in Hmt as [? _]. }
  rewrite !Hspec, !Hc.
  split; [reflexivity|]. split; [reflexivity|]. split; [reflexivity|].
  split; [discriminate|].
  split; [by eexists|]. split; [by eexists|].
  repeat split; by intros [mt Hmt].
Qed.

Lemma user_validator_accepts_witness :
  NoDup (Method_Name <$> Methods (PtrTo EchoT)) /\
  Echo_Echo ∈ Methods (PtrTo EchoT) /\
  (accepts (suitableMethods UserRpc (PtrTo EchoT) true).1 Echo_Echo <-> UserShape Echo_Echo).
Proof.
  assert (NoDup (Method_Name <$> Methods (PtrTo EchoT))) as Hnd.
  { apply (bool_decide_unpack _). vm_compute. exact I. }
  assert (Echo_Echo ∈ Methods (PtrTo EchoT)) as Hin.
  { simpl. unfold programMethods. simpl. apply list_elem_of_here. }
  split; [exact Hnd|]. split; [exact Hin|].
  exact (proj1 (user_validator_accepts (PtrTo EchoT) true Echo_Echo Hnd Hin)).
Defined.

(** [Register(nil)] and [Register(( *Echo)(nil))] panic where the concrete
    type is read; no error comes back. *)
Lemma register_nil_receiver :
  register None "" false userMachine =
    (Panic "reflect: call of reflect.Value.Type on zero Value", userMachine,
     [EvLock mu; EvUnlock mu]) /\
  register (Some (PtrTo EchoT, DNil)) "" false userMachine =
    (Panic "reflect: call of reflect.Value.Type on zero Value", userMachine,
     [EvLock mu; EvUnlock mu]) /\
  ~ exists e, (register None "" false userMachine).1.1 = Done (Some e).
Proof.
  split; [reflexivity|]. split; [reflexivity|].
  intros [e He]. vm_compute in He. discriminate.
Qed.

Lemma register_checks_witness :
  concreteType echoPtr = Some EchoT /\
  (register echoPtr "" false userMachine).1.1 =
    Done (registration (server userMachine) (PtrTo EchoT) EchoT "" false).
Proof.
  assert (concreteType echoPtr = Some EchoT) as Hc by reflexivity.
  split; [exact Hc|].
  exact (proj1 (register_checks userMachine (PtrTo EchoT) (DPtr (DOther 0)) EchoT
                  "" false Hc)).
Defined.

(** The four errors of registration, on the program. *)
Example register_program :
  (RegisterName "" echoPtr userMachine).1.1 = Done (Some (EmptyServiceName (PtrTo EchoT))) /\
  (Register (Some (PtrTo hiddenT, DPtr (DOther 0))) userMachine).1.1 =
    Done (Some (NameNotExported "hidden")) /\
  (Register echoPtr echoMachine).1.1 = Done (Some (DuplicateService "Echo")) /\
  (Register echoValue userMachine).1.1 = Done (Some (NoSuitableMethods "Echo" true)) /\
  (Register (Some (ArgsT, DOther 0)) userMachine).1.1 =
    Done (Some (NoSuitableMethods "Args" false)) /\
  (Register echoPtr userMachine).1.1 = Done None.
Proof. by vm_compute. Qed.

(** A route with an empty segment is not turned down for its format: it is
    looked up, and not found. *)
Lemma Call_empty_segment :
  Call ".Bar" [] userMachine = (Done ([], Some (ServiceNotFound "")), userMachine, []) /\
  Call "Echo." [] echoMachine = (Done ([], Some (MethodNotFound "")), echoMachine, []) /\
  (Call ".Bar" [] userMachine).1.1 ≠ Done ([], Some InvalidRouteFormat) /\
  (Call "Echo." [] echoMachine).1.1 ≠ Done ([], Some InvalidRouteFormat).
Proof.
  split; [reflexivity|]. split; [reflexivity|].
  split; intros H; vm_compute in H; discriminate.
Qed.

Lemma Call_not_found_witness :
  occurrences "." "Foo" = 0 /\ occurrences "." "Bar" = 0 /\
  Call "Foo.Bar" [] userMachine = (Done ([], Some (ServiceNotFound "Foo")), userMachine, []).
Proof.
  assert (occurrences "." "Foo" = 0) as Hs by reflexivity.
  assert (occurrences "." "Bar" = 0) as Hm by reflexivity.
  split; [exact Hs|]. split; [exact Hm|].
  apply (proj1 (Call_not_found userMachine "Foo" "Bar" [] Hs Hm)).
  intros s Hreg. vm_compute in Hreg. discriminate.
Defined.

(** The routes of the specification's tests. *)
Example Call_program :
  (Call "Foo.Bar" [hi] userMachine).1.1 = Done ([], Some (ServiceNotFound "Foo")) /\
  (Call "Foo" [hi] userMachine).1.1 = Done ([], Some InvalidRouteFormat) /\
  (Call "Echo.Missing" [hi] echoMachine).1.1 = Done ([], Some (MethodNotFound "Missing")) /\
  (Call "Echo.Echo.Echo" [hi] echoMachine).1.1 = Done ([], Some InvalidRouteFormat).
Proof. by vm_compute. Qed.

Lemma echo_registered :
  registered (server echoMachine) "Echo" echoService /\
  validated echoService "Echo" echoDescriptor.
Proof. split; reflexivity. Qed.

(** A service registered under a name that holds the separator cannot be
    reached: its routes have three segments. And a call whose arguments do
    not fit the method panics in [reflect.Value.Call]: nothing is returned. *)
Lemma Call_dotted_service :
  (RegisterName "a.b" echoPtr userMachine).1.1 = Done None /\
  (exists s mt,
     registered (server dottedMachine) "a.b" s /\ validated s "Echo" mt) /\
  Call "a.b.Echo" [hi] dottedMachine =
    (Done ([], Some InvalidRouteFormat), dottedMachine, []) /\
  (Call "Echo.Echo" [] echoMachine).1.1 = Panic wrongArgs.
Proof.
  split; [reflexivity|]. split; [|split; reflexivity].
  eexists _, _. split; reflexivity.
Qed.

Lemma Call_dispatches_witness :
  registered (server echoMachine) "Echo" echoService /\
  validated echoService "Echo" echoDescriptor /\
  occurrences "." "Echo" = 0 /\
  (Call "Echo.Echo" [hi] echoMachine).2 = [EvCall "Echo" [ValueOf echoPtr; hi]] /\
  (Call "Echo.Echo" [hi] echoMachine).1.2 = withWorld echoMachine 1 /\
  (Call "Echo.Echo" [hi] echoMachine).1.1 = Done ([hi; nilError], None).
Proof.
  assert (registered (server echoMachine) "Echo" echoService) as Hreg by reflexivity.
  assert (validated echoService "Echo" echoDescriptor) as Hval by reflexivity.
  assert (occurrences "." "Echo" = 0) as Hs by reflexivity.
  split; [exact Hreg|]. split; [exact Hval|]. split; [exact Hs|].
  destruct (Call_dispatches echoMachine "Echo" "Echo" echoService echoDescriptor
              [hi] Hreg Hval Hs Hs) as (Htrace & Hworld & Hdone & _).
  split; [exact Htrace|]. split; [exact Hworld|].
  exact (Hdone [hi; nilError] eq_refl).
Defined.

(** End to end: [Call("Echo.Echo", [payload])] returns [(payload, nil)] for
    every payload, the empty one too, and has run the handler once. *)
Example echo_end_to_end payload :
  Call "Echo.Echo" [bytes payload] echoMachine =
    (Done ([bytes payload; nilError], None), withWorld echoMachine 1,
     [EvCall "Echo" [ValueOf echoPtr; bytes payload]]).
Proof.
  exact (Call_found echoMachine "Echo" "Echo" echoService echoDescriptor
           [bytes payload] (proj1 echo_registered) (proj2 echo_registered)
           eq_refl eq_refl).
Qed.

Example echo_empty_payload :
  (Call "Echo.Echo" [bytes []] echoMachine).1.1 = Done ([bytes []; nilError], None).
Proof. by rewrite echo_end_to_end. Qed.

Lemma register_error_keeps_registry_witness :
  register echoPtr "" false echoMachine =
    (Done (Some (DuplicateService "Echo")), echoMachine, [EvLock mu; EvUnlock mu]) /\
  registered (server echoMachine) "Echo" echoService.
Proof.
  assert (register echoPtr "" false echoMachine =
            (Done (Some (DuplicateService "Echo")), echoMachine,
             [EvLock mu; EvUnlock mu])) as Hdup by reflexivity.
  split; [exact Hdup|].
  destruct (register_error_keeps_registry echoMachine echoPtr "" false _ _ _ Hdup)
    as (_ & _ & Hkept).
  exact (Hkept "Echo" echoService (proj1 echo_registered)).
Defined.

(** The pool on the program: a used response is released and taken again. *)
Example pool_round_trip :
  let released := (freeResponse (Some 1%positive) usedMachine).1.2 in
  let taken := getResponse released in
  taken.1.1 = Done 1%positive /\
  responses taken.1.2 !! 1%positive = Some zeroResponse /\
  freeResp (server taken.1.2) = None.
Proof. by vm_compute. Qed.

Example pool_allocates :
  let taken := getResponse usedMachine in
  exists p, taken.1.1 = Done p /\ p ≠ 1%positive /\
    responses taken.1.2 !! p = Some zeroResponse /\
    responses taken.1.2 !! 1%positive = Some used.
Proof. eexists. by vm_compute. Qed.

(** C9, on the program: [Call] reads the service map and the method table and
    runs the handler without taking [mu] in any mode, while [register] holds
    [mu] from beginning to end. *)
Theorem Call_lookup_unlocked :
  (Call "Echo.Echo" [hi] echoMachine).1.1 = Done ([hi; nilError], None) /\
  (Call "Echo.Echo" [hi] echoMachine).2 = [EvCall "Echo" [ValueOf echoPtr; hi]] /\
  Forall (fun e => ~ takes mu e) (Call "Echo.Echo" [hi] echoMachine).2 /\
  (Register echoPtr userMachine).2 =
    [EvLock mu; EvPrint "string []uint8";
     EvLog "method Text returns string not error"; EvUnlock mu].
Proof.
  split; [reflexivity|]. split; [reflexivity|]. split; [|reflexivity].
  apply Call_takes_no_lock.
Qed.

Lemma numCalls_inert_witness :
  reachable echoMachine /\
  registered (server echoMachine) "Echo" echoService /\
  validated echoService "Echo" echoDescriptor /\
  (NumCalls echoDescriptor echoMachine).1.1 = Done 0%N.
Proof.
  assert (reachable echoMachine) as Hreach.
  { exact (reachable_after (OpRegister echoPtr "" false) userMachine
             (reachable_new UserRpc ∅ ∅ 0)). }
  assert (registered (server echoMachine) "Echo" echoService) as Hreg by reflexivity.
  assert (validated echoService "Echo" echoDescriptor) as Hval by reflexivity.
  split; [exact Hreach|]. split; [exact Hreg|]. split; [exact Hval|].
  exact (proj2 (proj2 (numCalls_inert echoMachine "Echo" echoService "Echo"
                         echoDescriptor Hreach Hreg Hval))).
Defined.

(** However many calls are dispatched, the counter reads 0. *)
Example numCalls_after_calls :
  let mach := after (OpCall "Echo.Echo" [hi]) (after (OpCall "Echo.Echo" [hi]) echoMachine) in
  world mach = 2 /\ (NumCalls echoDescriptor mach).1.1 = Done 0%N.
Proof. by vm_compute. Qed.

(** ** The rest of the package: properties *)

(** *** Rendering *)

Lemma byteValues_all k : (k < 256)%N -> k ∈ byteValues.
Proof.
  intros Hk. unfold byteValues. apply list_elem_of_fmap.
  exists (N.to_nat k). split; [by rewrite N2Nat.id|].
  apply elem_of_seq. lia.
Qed.

Lemma noDecimal_spec names from k nm :
  noDecimal names from = true ->
  (k < 256)%N -> (from <= k)%N -> nm ∈ names -> nm ≠ Itoa k.
Proof.
  unfold noDecimal. rewrite forallb_forall. intros Hall Hk Hfrom Hnm Heq.
  apply byteValues_all, list_elem_of_In in Hk. specialize (Hall k Hk).
  apply orb_true_iff in Hall as [Hlt | Hall]; [apply N.ltb_lt in Hlt; lia|].
  rewrite forallb_forall in Hall. apply list_elem_of_In in Hnm.
  specialize (Hall nm Hnm). apply negb_true_iff in Hall.
  by rewrite Heq, String.eqb_refl in Hall.
Qed.

Lemma rpcResponseKindNames_noDecimal : noDecimal rpcResponseKindNames 4 = true.
Proof. vm_compute. reflexivity. Qed.

Lemma rpcKindNames_noDecimal : noDecimal rpcKindNames 3 = true.
Proof. vm_compute. reflexivity. Qed.

Lemma ResponseKind_String_cases k :
  (k = 0%N /\ ResponseKind_String k = "") \/
  (k = 1%N /\ ResponseKind_String k = "HandlerResponse") \/
  (k = 2%N /\ ResponseKind_String k = "HandlerPush") \/
  (k = 3%N /\ ResponseKind_String k = "RemoteResponse") \/
  ((4 <= k)%N /\ ResponseKind_String k = Itoa k).
Proof.
  destruct (decide (k = 0%N)) as [->|]; [by left|]. right.
  destruct (decide (k = 1%N)) as [->|]; [by left|]. right.
  destruct (decide (k = 2%N)) as [->|]; [by left|]. right.
  destruct (decide (k = 3%N)) as [->|]; [by left|]. right.
  split; [lia|]. unfold ResponseKind_String.
  destruct (N.to_nat k <? _) eqn:E; [|done].
  apply Nat.ltb_lt in E. simpl in E. lia.
Qed.

Lemma RpcKind_String_cases k :
  (k = 0%N /\ RpcKind_String k = "") \/
  (k = 1%N /\ RpcKind_String k = "SysRpc") \/
  (k = 2%N /\ RpcKind_String k = "UserRpc") \/
  ((3 <= k)%N /\ RpcKind_String k = Itoa k).
Proof.
  destruct (decide (k = 0%N)) as [->|]; [by left|]. right.
  destruct (decide (k = 1%N)) as [->|]; [by left|]. right.
  destruct (decide (k = 2%N)) as [->|]; [by left|]. right.
  split; [lia|]. unfold RpcKind_String.
  destruct (N.to_nat k <? _) eqn:E; [|done].
  apply Nat.ltb_lt in E. simpl in E. lia.
Qed.

(** A name of the table against a decimal: never equal. *)
Ltac in_table :=
  unfold rpcResponseKindNames, rpcKindNames;
  solve [repeat first [apply list_elem_of_here | apply list_elem_of_further]].

Ltac name_or_decimal Hnames :=
  match goal with
  | H : ?nm = Itoa ?k |- _ =>
      exfalso; apply (noDecimal_spec _ _ k nm Hnames); [assumption|assumption|in_table|exact H]
  | H : Itoa ?k = ?nm |- _ =>
      exfalso; apply (noDecimal_spec _ _ k nm Hnames);
        [assumption|assumption|in_table|symmetry; exact H]
  end.

(** X1. [String] renders the three response kinds by their names
    (HandlerResponse, HandlerPush, RemoteResponse), the zero value as the
    empty string and every other value in decimal, and it tells all the
    values of the byte apart. The same holds of the two namespaces, rendered
    SysRpc and UserRpc. The last two conjuncts give the rendering of every
    value in full. *)
Theorem kind_String_distinct k1 k2 :
  (k1 < 256)%N -> (k2 < 256)%N ->
  (ResponseKind_String k1 = ResponseKind_String k2 -> k1 = k2) /\
  (RpcKind_String k1 = RpcKind_String k2 -> k1 = k2) /\
  ((4 <= k1)%N -> ResponseKind_String k1 = Itoa k1) /\
  ((3 <= k1)%N -> RpcKind_String k1 = Itoa k1) /\
  (ResponseKind_String k1 = "" <-> k1 = 0%N) /\
  (RpcKind_String k1 = "" <-> k1 = 0%N) /\
  ResponseKind_String HandlerResponse = "HandlerResponse" /\
  ResponseKind_String HandlerPush = "HandlerPush" /\
  ResponseKind_String RemoteResponse = "RemoteResponse" /\
  RpcKind_String SysRpc = "SysRpc" /\
  RpcKind_String UserRpc = "UserRpc" /\
  ResponseKind_String k1 =
    (if decide (k1 = 0%N) then ""
     else if decide (k1 = HandlerResponse) then "HandlerResponse"
     else if decide (k1 = HandlerPush) then "HandlerPush"
     else if decide (k1 = RemoteResponse) then "RemoteResponse"
     else Itoa k1) /\
  RpcKind_String k1 =
    (if decide (k1 = 0%N) then ""
     else if decide (k1 = SysRpc) then "SysRpc"
     else if decide (k1 = UserRpc) then "UserRpc"
     else Itoa k1).
Proof.
  intros H1 H2.
  pose proof rpcResponseKindNames_noDecimal as Hresp.
  pose proof rpcKindNames_noDecimal as Hrpc.
  assert (forall a b, (a < 256)%N -> (b < 256)%N ->
            ResponseKind_String a = ResponseKind_String b -> a = b) as Hinj1.
  { intros a b Ha Hb Heq.
    destruct (ResponseKind_String_cases a)
      as [[-> Ea]|[[-> Ea]|[[-> Ea]|[[-> Ea]|[Ha' Ea]]]]];
    destruct (ResponseKind_String_cases b)
      as [[-> Eb]|[[-> Eb]|[[-> Eb]|[[-> Eb]|[Hb' Eb]]]]];
    rewrite ?Ea, ?Eb in Heq;
      first [ by apply (inj pretty) in Heq
            | name_or_decimal Hresp
            | discriminate Heq
            | reflexivity ]. }
  assert (forall a b, (a < 256)%N -> (b < 256)%N ->
            RpcKind_String a = RpcKind_String b -> a = b) as Hinj2.
  { intros a b Ha Hb Heq.
    destruct (RpcKind_String_cases a) as [[-> Ea]|[[-> Ea]|[[-> Ea]|[Ha' Ea]]]];
    destruct (RpcKind_String_cases b) as [[-> Eb]|[[-> Eb]|[[-> Eb]|[Hb' Eb]]]];
    rewrite ?Ea, ?Eb in Heq;
      first [ by apply (inj pretty) in Heq
            | name_or_decimal Hrpc
            | discriminate Heq
            | reflexivity ]. }
  split; [by apply Hinj1|]. split; [by apply Hinj2|].
  split; [|split; [|split; [split|split; [split|]]]].
  - intros Hk. destruct (ResponseKind_String_cases k1)
      as [[-> _]|[[-> _]|[[-> _]|[[-> _]|[_ E]]]]]; first [lia | exact E].
  - intros Hk. destruct (RpcKind_String_cases k1) as [[-> _]|[[-> _]|[[-> _]|[_ E]]]];
      first [lia | exact E].
  - intros He. apply Hinj1; [done|lia|by rewrite He].
  - by intros ->.
  - intros He. apply Hinj2; [done|lia|by rewrite He].
  - by intros ->.
  - do 5 (split; [reflexivity|]). split.
    + destruct (ResponseKind_String_cases k1)
        as [[-> E]|[[-> E]|[[-> E]|[[-> E]|[Hk E]]]]]; rewrite E; try reflexivity.
      unfold HandlerResponse, HandlerPush, RemoteResponse.
      repeat (destruct (decide _) as [?|_]; [lia|]). reflexivity.
    + destruct (RpcKind_String_cases k1) as [[-> E]|[[-> E]|[[-> E]|[Hk E]]]];
        rewrite E; try reflexivity.
      unfold SysRpc, UserRpc.
      repeat (destruct (decide _) as [?|_]; [lia|]). reflexivity.
Qed.

Lemma kind_String_distinct_witness :
  (2 < 256)%N /\ (ResponseKind_String HandlerPush = ResponseKind_String 2%N -> HandlerPush = 2%N).
Proof.
  assert (2 < 256)%N as H by reflexivity.
  split; [exact H|].
  exact (proj1 (kind_String_distinct HandlerPush 2%N H H)).
Defined.

Example kind_String_program :
  ResponseKind_String HandlerResponse = "HandlerResponse" /\
  ResponseKind_String HandlerPush = "HandlerPush" /\
  ResponseKind_String RemoteResponse = "RemoteResponse" /\
  ResponseKind_String 200%N = "200" /\
  RpcKind_String SysRpc = "SysRpc" /\
  RpcKind_String UserRpc = "UserRpc" /\
  RpcKind_String 3%N = "3".
Proof. by vm_compute. Qed.

Section Coverage.

Context `{RT : GoRuntime World}.

Implicit Types (m : Method World) (mt : methodType World) (typ : rtype).
Implicit Types (mach : Machine World) (srv : Server World).

(** *** The validator *)

(** X2. For a type of pointer kind, whether it is a pointer literal or a
    defined pointer type, the test looks at the pointee alone: the type's own
    name and package are not consulted. *)
Theorem isExportedOrBuiltinType_pointee t e :
  rtype_Elem t = Some e ->
  isExportedOrBuiltinType t = isExportedOrBuiltinType e.
Proof.
  intros He. unfold isExportedOrBuiltinType.
  rewrite (stripPtr_loop t), He.
  by rewrite decide_True by eauto using rtype_Elem_Kind.
Qed.

Lemma sysMethod_descriptor reportErr m mt :
  sysMethod reportErr m = Install mt ->
  mt = mkMethodType m (ins (Method_Type m) !! 1) (ins (Method_Type m) !! 2) 0%N.
Proof.
  unfold sysMethod. intros H. repeat case_match; by simplify_eq.
Qed.

Lemma userMethod_descriptor reportErr m mt :
  userMethod reportErr m = Install mt -> mt = mkMethodType m None None 0%N.
Proof.
  unfold userMethod. intros H. repeat case_match; by simplify_eq.
Qed.

Lemma visit_entries (body : Method World -> Verdict World)
    (P : string -> option (methodType World) -> Prop) (all l : list (Method World)) acc :
  (forall m mt, m ∈ all -> body m = Install mt -> P (Method_Name m) (Some mt)) ->
  (forall m, m ∈ l -> m ∈ all) ->
  (forall nm v, acc.1 !! nm = Some v -> P nm v) ->
  forall nm v, (foldl (visit body) acc l).1 !! nm = Some v -> P nm v.
Proof.
  intros Hbody. revert acc. induction l as [|x l IH]; intros acc Hl Hacc; [done|].
  simpl. apply IH; [intros m Hm; apply Hl; by right|].
  unfold visit. destruct (body x) as [evs|mt'] eqn:Hb; simpl; [done|].
  intros nm v. rewrite lookup_insert. case_decide; [|by eauto].
  intros; simplify_eq. apply Hbody; [|done]. apply Hl. by left.
Qed.

(** X3. Whatever the method table, every entry the validator returns is a
    descriptor, never nil, bound under the name of its own method, which is a
    method of the type and has the call shape of the namespace; its counter
    is 0, and it records the argument and reply types in the Sys namespace
    and none in the User namespace. *)
Theorem suitableMethods_sound kind typ reportErr nm v :
  (suitableMethods kind typ reportErr).1 !! nm = Some v ->
  exists mt,
    v = Some mt /\
    Method_Name (method mt) = nm /\
    method mt ∈ Methods typ /\
    Shape kind (method mt) /\
    numCalls mt = 0%N /\
    (kind = SysRpc ->
       ArgType mt = ins (Method_Type (method mt)) !! 1 /\
       ReplyType mt = ins (Method_Type (method mt)) !! 2) /\
    (kind = UserRpc -> ArgType mt = None /\ ReplyType mt = None).
Proof.
  unfold suitableMethods. repeat case_decide; [| |by cbn [fst]; rewrite lookup_empty].
  - subst kind. revert nm v.
    apply (visit_entries _ _ (Methods typ));
      [|done|by intros ? ?; cbn [fst]; rewrite lookup_empty].
    intros m mt Hin Hm. pose proof (sysMethod_descriptor _ _ _ Hm) as ->.
    apply sysMethod_Install in Hm as [Hshape _].
    exists (mkMethodType m (ins (Method_Type m) !! 1) (ins (Method_Type m) !! 2) 0%N).
    simpl. repeat split; try done. by left.
  - subst kind. revert nm v.
    apply (visit_entries _ _ (Methods typ));
      [|done|by intros ? ?; cbn [fst]; rewrite lookup_empty].
    intros m mt Hin Hm. pose proof (userMethod_descriptor _ _ _ Hm) as ->.
    apply userMethod_Install in Hm as [Hshape _].
    exists (mkMethodType m None None 0%N).
    simpl. repeat split; try done. by right.
Qed.

Lemma sysMethod_reportErr m : sameVerdict (sysMethod true m) (sysMethod false m).
Proof. unfold sysMethod. repeat case_match; simpl; done. Qed.

Lemma userMethod_reportErr m : sameVerdict (userMethod true m) (userMethod false m).
Proof. unfold userMethod. repeat case_match; simpl; done. Qed.

Lemma visit_sameVerdict (body body' : Method World -> Verdict World) l acc acc' :
  (forall m, sameVerdict (body m) (body' m)) ->
  acc.1 = acc'.1 ->
  (foldl (visit body) acc l).1 = (foldl (visit body') acc' l).1.
Proof.
  intros Hsame. revert acc acc'. induction l as [|x l IH]; intros acc acc' Hacc; [done|].
  simpl. apply IH. unfold visit. specialize (Hsame x).
  destruct (body x), (body' x); simpl in *; try done. by subst; rewrite Hacc.
Qed.

Lemma visit_events (body : Method World -> Verdict World) (Q : Event -> Prop) l acc :
  (forall m evs, body m = Skip evs -> Forall Q evs) ->
  Forall Q acc.2 -> Forall Q (foldl (visit body) acc l).2.
Proof.
  intros Hbody. revert acc. induction l as [|x l IH]; intros acc Hacc; [done|].
  simpl. apply IH. unfold visit. destruct (body x) as [evs|mt] eqn:Hb; simpl; [|done].
  apply Forall_app. eauto.
Qed.

(** The trace of the loop is what its turns print, in the order of the
    methods. *)
Lemma visit_trace (body : Method World -> Verdict World) l acc :
  (foldl (visit body) acc l).2 = acc.2 ++ flat_map (fun m => printed (body m)) l.
Proof.
  revert acc. induction l as [|x l IH]; intros acc; simpl; [by rewrite app_nil_r|].
  rewrite IH. unfold visit, printed.
  destruct (body x) as [evs|mt]; simpl; [by rewrite app_assoc | done].
Qed.

Lemma userMethod_printed m : printed (userMethod false m) = userStdout m.
Proof.
  unfold userMethod, userStdout, printed, report. cbv zeta.
  destruct (decide (Method_PkgPath m = "")) as [Hpkg|Hpkg].
  2: { rewrite (bool_decide_eq_false_2 _ Hpkg). simpl.
       destruct (outs (Method_Type m)) as [|r0 [|r1 [|r2 rest]]]; try done.
       by rewrite decide_False by (by intros [? _]). }
  rewrite (bool_decide_eq_true_2 _ Hpkg). simpl.
  destruct (NumIn (Method_Type m) <? 1) eqn:Hn.
  { apply Nat.ltb_lt in Hn.
    destruct (outs (Method_Type m)) as [|r0 [|r1 [|r2 rest]]]; try done.
    by rewrite decide_False by (intros (_ & ? & _); lia). }
  apply Nat.ltb_ge in Hn.
  destruct (outs (Method_Type m)) as [|r0 [|r1 [|r2 rest]]]; try done.
  destruct (decide (r0 = typeOfBytes)) as [Hr|Hr].
  { rewrite (bool_decide_eq_true_2 _ Hr). simpl.
    rewrite decide_False by (by intros (_ & _ & ?)).
    by destruct (negb _). }
  rewrite (bool_decide_eq_false_2 _ Hr). simpl. by rewrite decide_True.
Qed.

(** X4. [reportErr] changes what is printed and nothing else: the methods
    returned are the same with and without it. All the validator does on its
    environment is to print. Without [reportErr] the Sys namespace prints
    nothing, while the User namespace still writes to standard output, never
    to the log: its output is exactly one line, the result type and [[]byte],
    for each exported method with a parameter and two results whose first
    result is not [[]byte], in the order of the methods; and that line is
    written whatever [reportErr] is. *)
Theorem suitableMethods_reportErr kind typ :
  (suitableMethods kind typ true).1 = (suitableMethods kind typ false).1 /\
  (forall reportErr, Forall prints (suitableMethods kind typ reportErr).2) /\
  (kind ≠ UserRpc -> (suitableMethods kind typ false).2 = []) /\
  Forall printsOut (suitableMethods kind typ false).2 /\
  (kind = UserRpc ->
   (suitableMethods kind typ false).2 = flat_map userStdout (Methods typ)) /\
  (kind = UserRpc ->
   forall reportErr m returnType0 returnType1,
     m ∈ Methods typ ->
     Method_PkgPath m = "" ->
     1 <= NumIn (Method_Type m) ->
     outs (Method_Type m) = [returnType0; returnType1] ->
     returnType0 ≠ typeOfBytes ->
     EvPrint (rtype_String returnType0 +:+ " " +:+ rtype_String typeOfBytes)
       ∈ (suitableMethods kind typ reportErr).2).
Proof.
  unfold suitableMethods. repeat case_decide; subst; try done.
  - split; [apply visit_sameVerdict; [apply sysMethod_reportErr | done]|].
    assert (forall m evs, sysMethod false m = Skip evs -> evs = []) as Hquiet.
    { intros m evs. unfold sysMethod, report. intros Hskip.
      repeat case_match; by simplify_eq. }
    assert (Forall (fun _ => False) (foldl (visit (sysMethod false)) (∅, []) (Methods typ)).2)
      as Hnone.
    { apply visit_events; [|done]. intros m evs Hm. by rewrite (Hquiet m evs Hm). }
    assert ((foldl (visit (sysMethod false)) (∅, []) (Methods typ)).2 = []) as ->.
    { destruct (foldl _ _ _).2 as [|e evs]; [done|]. by inversion Hnone. }
    repeat split; [|done..].
    intros reportErr. apply visit_events; [|done].
    intros m evs. unfold sysMethod, report. intros Hskip.
    repeat case_match; simplify_eq; repeat constructor.
  - split; [apply visit_sameVerdict; [apply userMethod_reportErr | done]|].
    split; [|split; [done|split; [|split]]].
    + intros reportErr. apply visit_events; [|done].
      intros m evs. unfold userMethod, report. intros Hskip.
      repeat case_match; simplify_eq; repeat constructor.
    + apply visit_events; [|done].
      intros m evs. unfold userMethod, report. intros Hskip.
      repeat case_match; simplify_eq; repeat constructor.
    + intros _. rewrite visit_trace. simpl.
      apply flat_map_ext. intros m. apply userMethod_printed.
    + intros _ reportErr m r0 r1 Hin Hpkg Hnum Houts Hr0.
      rewrite visit_trace. simpl.
      apply list_elem_of_In, in_flat_map. exists m.
      split; [by apply list_elem_of_In|]. apply list_elem_of_In.
      unfold userMethod, printed. rewrite Houts.
      rewrite (bool_decide_eq_true_2 _ Hpkg). simpl.
      apply Nat.ltb_ge in Hnum. rewrite Hnum.
      rewrite (bool_decide_eq_false_2 _ Hr0). simpl.
      apply list_elem_of_here.
Qed.

(** *** Registration and the registry *)

(** What is known when [register] has returned [nil]. *)
Lemma register_Done_None mach rcvr name useName mach' tr :
  register rcvr name useName mach = (Done None, mach', tr) ->
  exists ty d t,
    rcvr = Some (ty, d) /\
    concreteType rcvr = Some t /\
    let sname := serviceName t name useName in
    sname ≠ "" /\
    (useName = true \/ isExported sname = true) /\
    serviceMap (server mach) !! sname = None /\
    size (suitableMethods (Server_Kind (server mach)) ty true).1 ≠ 0 /\
    mach' = installed mach sname (Val ty d) ty.
Proof.
  intros Hreg.
  destruct (concreteType rcvr) as [t|] eqn:Hc.
  - pose proof Hc as Hc'.
    apply concreteType_Some in Hc as (ty & d & d' & -> & Hind).
    rewrite (register_run _ _ _ _ _ _ _ Hind) in Hreg. cbv zeta in Hreg.
    exists ty, d, t. split; [done|]. split; [done|]. cbv zeta.
    destruct (decide _) as [|Hne]; [by simplify_eq|].
    destruct (negb useName && negb (isExported _)) eqn:Hx; [by simplify_eq|].
    destruct (decide (is_Some _)) as [|Hp]; [by simplify_eq|].
    destruct (decide (size _ = 0)) as [|Hz]; [by simplify_eq|].
    simplify_eq. split; [done|]. split.
    { destruct useName; [by left|]. right.
      by destruct (isExported (serviceName t name false)). }
    split; [by apply eq_None_not_Some|]. done.
  - rewrite register_panics in Hreg by done. by simplify_eq.
Qed.

(** What [register] leaves behind: the machine it found, or that machine with
    one more service. *)
Lemma register_after mach rcvr name useName :
  (register rcvr name useName mach).1.2 = mach \/
  exists mach' tr, register rcvr name useName mach = (Done None, mach', tr).
Proof.
  destruct (register rcvr name useName mach) as [[o mach'] tr] eqn:Hreg.
  destruct o as [[e|]|msg]; [| right; eauto |];
    left; simpl; by eapply register_frame.
Qed.

Lemma after_Kind op mach :
  Server_Kind (server (after op mach)) = Server_Kind (server mach).
Proof.
  destruct op as [rcvr name useName|route args|mt|req| |resp]; simpl.
  - destruct (register_after mach rcvr name useName) as [-> | (mach' & tr & Hreg)]; [done|].
    rewrite Hreg. apply register_Done_None in Hreg as (ty & d & t & _ & _ & Hrest).
    cbv zeta in Hrest. by destruct Hrest as (_ & _ & _ & _ & ->).
  - rewrite Call_run. repeat case_match; simpl; done.
  - done.
  - destruct req; simpl; done.
  - rewrite getResponse_run. cbv zeta. case_match; simpl; done.
  - destruct resp; simpl; done.
Qed.

Lemma after_serviceMap op mach :
  serviceMap (server (after op mach)) = serviceMap (server mach) \/
  exists rcvr name useName mach' tr,
    op = OpRegister rcvr name useName /\
    register rcvr name useName mach = (Done None, mach', tr) /\
    after op mach = mach'.
Proof.
  destruct op as [rcvr name useName|route args|mt|req| |resp]; simpl.
  - destruct (register_after mach rcvr name useName) as [-> | (mach' & tr & Hreg)];
      [by left|].
    right. exists rcvr, name, useName, mach', tr. by rewrite Hreg.
  - left. rewrite Call_run. repeat case_match; simpl; done.
  - by left.
  - left. destruct req; simpl; done.
  - left. rewrite getResponse_run. cbv zeta. case_match; simpl; done.
  - left. destruct resp; simpl; done.
Qed.

(** X5. A successful registration stores the service under the resolved
    name, which was free; the service holds the receiver as it was given and
    is well registered; every other name of the registry reads as before. *)
Theorem register_success mach receiver explicit useName mach' tr :
  register receiver explicit useName mach = (Done None, mach', tr) ->
  exists t sname s,
    concreteType receiver = Some t /\
    sname = serviceName t explicit useName /\
    serviceMap (server mach) !! sname = None /\
    registered (server mach') sname s /\
    wellRegistered (server mach') sname s /\
    rcvr s = ValueOf receiver /\
    TypeOf receiver = Some (typ s) /\
    (forall n, n ≠ sname ->
       serviceMap (server mach') !! n = serviceMap (server mach) !! n).
Proof.
  intros Hreg.
  apply register_Done_None in Hreg as (ty & d & t & -> & Hc & Hrest).
  cbv zeta in Hrest. destruct Hrest as (Hne & _ & Hfree & Hsize & ->).
  eexists t, _, _. split; [done|]. split; [done|]. split; [done|].
  split; [apply lookup_insert_eq|].
  split; [|split; [done|split; [done|]]].
  - unfold wellRegistered. simpl. eauto 10.
  - intros n Hn. simpl. by rewrite lookup_insert_ne.
Qed.

(** X6. A service, once registered, stays registered under its name, with the
    same receiver and the same methods, whatever operations follow. *)
Theorem registered_forever (ops : list Op) mach sname (s : service World) :
  registered (server mach) sname s ->
  registered (server (foldl (fun mach op => after op mach) mach ops)) sname s.
Proof.
  revert mach. induction ops as [|op ops IH]; intros mach Hreg; [done|].
  simpl. apply IH. unfold registered in *.
  destruct (after_serviceMap op mach)
    as [-> | (rcvr & name & useName & mach' & tr & -> & Hdone & ->)]; [done|].
  apply register_Done_None in Hdone as (ty & d & t & _ & _ & Hrest).
  cbv zeta in Hrest. destruct Hrest as (_ & _ & Hfree & _ & ->). simpl.
  rewrite lookup_insert_ne; [done|]. intros <-. by rewrite Hfree in Hreg.
Qed.

Lemma after_soundRegistry op mach :
  soundRegistry (server mach) -> soundRegistry (server (after op mach)).
Proof.
  intros Hsound.
  assert (forall srv', Server_Kind srv' = Server_Kind (server mach) ->
            serviceMap srv' = serviceMap (server mach) -> soundRegistry srv') as Hsame.
  { intros srv' Hk Hm sname v. rewrite Hm. intros Hv.
    destruct (Hsound sname v Hv) as (s & -> & Hwell).
    exists s. split; [done|]. unfold wellRegistered in *. by rewrite Hk. }
  destruct (after_serviceMap op mach)
    as [Heq | (rcvr & name & useName & mach' & tr & -> & Hdone & Hafter)].
  { apply Hsame; [apply after_Kind | done]. }
  rewrite Hafter.
  apply register_Done_None in Hdone as (ty & d & t & _ & _ & Hrest).
  cbv zeta in Hrest. destruct Hrest as (Hne & _ & Hfree & Hsize & ->).
  intros sname v. simpl. rewrite lookup_insert. case_decide as Hn.
  - intros [= <-]. eexists. split; [done|]. unfold wellRegistered. simpl.
    subst sname. eauto 10.
  - intros Hv. destruct (Hsound sname v Hv) as (s & -> & Hwell).
    exists s. split; [done|]. done.
Qed.

(** X7. On every machine the operations can reach, every entry of the
    registry is a service, never nil, stored under its own name, which is not
    empty, with a receiver of the recorded type and exactly the methods the
    validator of the server's namespace finds on that type, at least one. So
    a route whose service segment is empty always ends in ServiceNotFound. *)
Theorem reachable_soundRegistry mach :
  reachable mach ->
  soundRegistry (server mach) /\
  forall smethod args,
    occurrences "." smethod = 0 ->
    Call ("" +:+ "." +:+ smethod) args mach =
      (Done ([], Some (ServiceNotFound "")), mach, []).
Proof.
  intros Hreach.
  assert (soundRegistry (server mach)) as Hsound.
  { induction Hreach as [kind reqs resps w | op mach _ IH].
    - intros sname v. simpl. by rewrite lookup_empty.
    - by apply after_soundRegistry. }
  split; [done|]. intros smethod args Hm.
  rewrite Call_run, Split_route by done.
  destruct (serviceMap (server mach) !! "") as [v|] eqn:Hv; [|done].
  destruct (Hsound "" v Hv) as (s & _ & _ & Hne & _). done.
Qed.

(** X8. A server whose kind is neither SysRpc nor UserRpc can hold no
    service: the validator finds nothing, every registration fails, the
    registry stays empty and every [Call] returns an error without running
    anything. *)
Theorem no_namespace_no_service mach :
  reachable mach ->
  Server_Kind (server mach) ≠ SysRpc ->
  Server_Kind (server mach) ≠ UserRpc ->
  (forall typ reportErr, suitableMethods (Server_Kind (server mach)) typ reportErr = (∅, [])) /\
  (forall rcvr name useName,
     (register rcvr name useName mach).1.1 ≠ Done None /\
     (register rcvr name useName mach).1.2 = mach) /\
  serviceMap (server mach) = ∅ /\
  (forall route args, exists e, Call route args mach = (Done ([], Some e), mach, [])).
Proof.
  intros Hreach Hsys Huser.
  assert (forall typ reportErr,
            suitableMethods (Server_Kind (server mach)) typ reportErr = (∅, [])) as Hnone.
  { intros typ reportErr. unfold suitableMethods. by rewrite !decide_False. }
  assert (forall rcvr name useName mach' tr,
            register rcvr name useName mach ≠ (Done None, mach', tr)) as Hfail.
  { intros rcvr name useName mach' tr Hreg.
    apply register_Done_None in Hreg as (ty & d & t & _ & _ & Hrest).
    cbv zeta in Hrest. destruct Hrest as (_ & _ & _ & Hsize & _).
    by rewrite Hnone in Hsize. }
  assert (serviceMap (server mach) = ∅) as Hempty.
  { clear Hnone Hfail. induction Hreach as [kind reqs resps w | op mach _ IH]; [done|].
    rewrite after_Kind in Hsys, Huser.
    destruct (after_serviceMap op mach)
      as [-> | (rcvr & name & useName & mach' & tr & -> & Hdone & _)]; [by apply IH|].
    apply register_Done_None in Hdone as (ty & d & t & _ & _ & Hrest).
    cbv zeta in Hrest. destruct Hrest as (_ & _ & _ & Hsize & _).
    unfold suitableMethods in Hsize. by rewrite !decide_False in Hsize. }
  split; [done|]. split; [|split; [done|]].
  - intros rcvr name useName.
    destruct (register rcvr name useName mach) as [[o mach'] tr] eqn:Hreg. simpl.
    assert (o ≠ Done None) as Ho by (intros ->; by eapply Hfail).
    split; [done|]. by eapply register_frame.
  - intros route args. rewrite Call_run, Hempty.
    destruct (Split route ".") as [|sname [|smethod [|x parts]]];
      rewrite ?lookup_empty; eauto.
Qed.

(** X9. An explicit name is taken as it is: whatever it looks like, exported
    or not, with a separator or without, [RegisterName] succeeds as soon as
    the name is not empty and not taken and the receiver has a suitable
    method. *)
Theorem RegisterName_any_name mach name ty d t :
  concreteType (Some (ty, d)) = Some t ->
  name ≠ "" ->
  serviceMap (server mach) !! name = None ->
  size (suitableMethods (Server_Kind (server mach)) ty true).1 ≠ 0 ->
  (RegisterName name (Some (ty, d)) mach).1.1 = Done None /\
  (RegisterName name (Some (ty, d)) mach).1.2 = installed mach name (Val ty d) ty.
Proof.
  unfold concreteType. simpl ValueOf. intros Hc Hne Hfree Hsize.
  destruct (Indirect (Val ty d)) as [|t' d'] eqn:Hind; simplify_eq.
  unfold RegisterName. rewrite (register_run _ _ _ _ _ _ _ Hind). cbv zeta.
  unfold serviceName. rewrite decide_False by done. simpl.
  rewrite decide_False by (rewrite Hfree; by intros [? ?]).
  by rewrite decide_False.
Qed.

(** *** Registration, then dispatch *)

Lemma suitableMethods_accepts kind typ reportErr m :
  NoDup (Method_Name <$> Methods typ) ->
  m ∈ Methods typ ->
  Shape kind m ->
  accepts (suitableMethods kind typ reportErr).1 m.
Proof.
  intros Hnd Hin [[-> Hshape] | [-> Hshape]]; unfold suitableMethods.
  - rewrite decide_True by done. rewrite accepts_foldl; eauto.
    + by apply sysMethod_SysShape.
    + intros mt Hmt. by apply sysMethod_Install in Hmt as [_ ?].
  - rewrite decide_False by done. rewrite decide_True by done.
    rewrite accepts_foldl; eauto.
    + by apply userMethod_UserShape.
    + intros mt Hmt. by apply userMethod_Install in Hmt as [_ ?].
Qed.

(** X10. Registration and dispatch fit together: once a receiver has been
    registered under a name without separator, [Call] on "name.M", for every
    method M of the receiver's type that has the call shape of the server's
    namespace, runs that very method once, on the receiver as it was given
    followed by the arguments, and returns what it returns. *)
Theorem register_then_Call mach receiver explicit useName mach' tr t ty m args :
  register receiver explicit useName mach = (Done None, mach', tr) ->
  concreteType receiver = Some t ->
  TypeOf receiver = Some ty ->
  NoDup (Method_Name <$> Methods ty) ->
  m ∈ Methods ty ->
  Shape (Server_Kind (server mach)) m ->
  occurrences "." (serviceName t explicit useName) = 0 ->
  occurrences "." (Method_Name m) = 0 ->
  Call (serviceName t explicit useName +:+ "." +:+ Method_Name m) args mach' =
    let '(o, w) := Method_Func m (ValueOf receiver :: args) (world mach) in
    (dispatched o, withWorld mach' w,
     [EvCall (Method_Name m) (ValueOf receiver :: args)]).
Proof.
  intros Hreg Hc Hty Hnd Hin Hshape Hs Hm.
  apply register_Done_None in Hreg as (ty' & d & t' & -> & Hc' & Hrest).
  cbv zeta in Hrest. simpl in Hty. simplify_eq.
  destruct Hrest as (_ & _ & _ & _ & ->).
  destruct (suitableMethods_accepts (Server_Kind (server mach)) ty true m Hnd Hin Hshape)
    as (mt & Hmt & Hmeth).
  rewrite (Call_found _ _ _
             (mkService (serviceName t explicit useName) (Val ty d) ty
                (suitableMethods (Server_Kind (server mach)) ty true).1) mt);
    [|by apply lookup_insert_eq|done|done|done].
  rewrite Hmeth. simpl. by destruct (Method_Func m _ _) as [[rets|msg] w].
Qed.

(** *** Dispatch *)

Lemma Split_two s sep a b :
  Split s sep = [a; b] ->
  s = a +:+ String sep b /\ occurrences sep a = 0 /\ occurrences sep b = 0.
Proof.
  revert a. induction s as [|c s IH]; intros a; [done|]. simpl.
  destruct (decide (c = sep)) as [->|Hc].
  - intros [= <- Hb]. split; [|split; [done|]].
    + f_equal. pose proof (Split_length s sep) as Hlen. rewrite Hb in Hlen.
      simpl in Hlen. assert (occurrences sep s = 0) as Hz by lia.
      apply Split_none in Hz. rewrite Hz in Hb. by simplify_eq.
    + pose proof (Split_length s sep) as Hlen. rewrite Hb in Hlen.
      simpl in Hlen. assert (occurrences sep s = 0) as Hz by lia.
      apply Split_none in Hz. rewrite Hz in Hb. simplify_eq. lia.
  - destruct (Split s sep) as [|part parts] eqn:Hsplit; [done|].
    intros [= <- ->]. destruct (IH part eq_refl) as (-> & Ha & Hb).
    split; [done|]. split; [|done]. simpl. by rewrite decide_False.
Qed.

(** X11. What [Call] can come to. It never changes the server or the heap.
    When it returns an error it returns no results, has run nothing and has
    changed nothing at all. It returns a nil error only for a route "S.M"
    with S registered and M validated, after one run of that method that
    returned. *)
Theorem Call_outcomes route args mach :
  server (Call route args mach).1.2 = server mach /\
  requests (Call route args mach).1.2 = requests mach /\
  responses (Call route args mach).1.2 = responses mach /\
  (forall rets e,
     (Call route args mach).1.1 = Done (rets, Some e) ->
     rets = [] /\ (Call route args mach).1.2 = mach /\ (Call route args mach).2 = []) /\
  (forall rets,
     (Call route args mach).1.1 = Done (rets, None) ->
     exists sname smethod (s : service World) mt,
       route = sname +:+ "." +:+ smethod /\
       registered (server mach) sname s /\
       validated s smethod mt /\
       (Method_Func (method mt) (rcvr s :: args) (world mach)).1 = Done rets /\
       (Call route args mach).2 = [EvCall (Method_Name (method mt)) (rcvr s :: args)]).
Proof.
  rewrite Call_run.
  destruct (Split route ".") as [|sname [|smethod [|x parts]]] eqn:Hsplit;
    try (simpl; repeat split; intros; simplify_eq; by repeat split).
  destruct (serviceMap (server mach) !! sname) as [[s|]|] eqn:Hs;
    try (simpl; repeat split; intros; simplify_eq; by repeat split).
  destruct (method_ s !! smethod) as [[mt|]|] eqn:Hm;
    try (simpl; repeat split; intros; simplify_eq; by repeat split).
  destruct (Method_Func _ _ _) as [[rets|msg] w] eqn:Hrun; simpl;
    (split; [done|]; split; [done|]; split; [done|]; split; [intros; by simplify_eq|]);
    [|intros; by simplify_eq].
  intros rets' [= <-]. apply Split_two in Hsplit as (-> & _ & _).
  exists sname, smethod, s, mt. by rewrite Hrun.
Qed.

(** *** Who touches what *)

(** X12. The parts of the machine are kept apart. No operation changes the
    kind of the server. Registration touches neither the heap, nor the free
    lists, nor the world; [Call] touches the world alone; [NumCalls] touches
    nothing; releasing a request leaves the registry, the responses and the
    world alone, and the response pool leaves the registry, the requests and
    the world alone. *)
Theorem operations_frame op mach :
  Server_Kind (server (after op mach)) = Server_Kind (server mach) /\
  match op with
  | OpRegister _ _ _ =>
      requests (after op mach) = requests mach /\
      responses (after op mach) = responses mach /\
      freeReq (server (after op mach)) = freeReq (server mach) /\
      freeResp (server (after op mach)) = freeResp (server mach) /\
      world (after op mach) = world mach
  | OpCall _ _ =>
      server (after op mach) = server mach /\
      requests (after op mach) = requests mach /\
      responses (after op mach) = responses mach
  | OpNumCalls _ => after op mach = mach
  | OpFreeRequest _ =>
      serviceMap (server (after op mach)) = serviceMap (server mach) /\
      responses (after op mach) = responses mach /\
      freeResp (server (after op mach)) = freeResp (server mach) /\
      world (after op mach) = world mach
  | OpGetResponse | OpFreeResponse _ =>
      serviceMap (server (after op mach)) = serviceMap (server mach) /\
      requests (after op mach) = requests mach /\
      freeReq (server (after op mach)) = freeReq (server mach) /\
      world (after op mach) = world mach
  end.
Proof.
  split; [apply after_Kind|].
  destruct op as [rcvr name useName|route args|mt|req| |resp]; simpl.
  - destruct (register_after mach rcvr name useName) as [-> | (mach' & tr & Hreg)]; [done|].
    rewrite Hreg. apply register_Done_None in Hreg as (ty & d & t & _ & _ & Hrest).
    cbv zeta in Hrest. by destruct Hrest as (_ & _ & _ & _ & ->).
  - rewrite Call_run. repeat case_match; simpl; done.
  - done.
  - destruct req; simpl; done.
  - rewrite getResponse_run. cbv zeta. case_match; simpl; done.
  - destruct resp; simpl; done.
Qed.

(** *** The pools *)

Lemma respList_agree (h h' : gmap loc Response) head l :
  respList h head l ->
  (forall p, p ∈ l -> h' !! p = h !! p) ->
  respList h' head l.
Proof.
  induction 1 as [|p r l Hp _ IH]; intros Hagree; [constructor|].
  econstructor.
  - rewrite Hagree; [done | by left].
  - apply IH. intros q Hq. apply Hagree. by right.
Qed.

Lemma reqList_agree (h h' : gmap loc Request) head l :
  reqList h head l ->
  (forall p, p ∈ l -> h' !! p = h !! p) ->
  reqList h' head l.
Proof.
  induction 1 as [|p r l Hp _ IH]; intros Hagree; [constructor|].
  econstructor.
  - rewrite Hagree; [done | by left].
  - apply IH. intros q Hq. apply Hagree. by right.
Qed.

(** X13. The response pool is a stack. When the free list holds the objects
    [l], each once: releasing an object of the heap that is not in the list
    puts it in front of [l]; acquiring from a list that is not empty returns
    its first object and leaves the rest; acquiring from the empty list
    returns an object the heap did not hold and leaves the list empty. *)
Theorem response_pool_stack mach l :
  respList (responses mach) (freeResp (server mach)) l ->
  NoDup l ->
  (forall x, is_Some (responses mach !! x) -> x ∉ l ->
     let mach' := after (OpFreeResponse (Some x)) mach in
     respList (responses mach') (freeResp (server mach')) (x :: l)) /\
  (let mach' := after OpGetResponse mach in
   match l with
   | x :: rest =>
       (getResponse mach).1.1 = Done x /\
       respList (responses mach') (freeResp (server mach')) rest
   | [] =>
       (exists p, (getResponse mach).1.1 = Done p /\ responses mach !! p = None) /\
       respList (responses mach') (freeResp (server mach')) []
   end).
Proof.
  intros Hlist Hnd. split.
  - intros x [r Hr] Hx. simpl.
    econstructor.
    + by rewrite lookup_alter_eq, Hr.
    + simpl. eapply respList_agree; [done|].
      intros p Hp. apply lookup_alter_ne. by intros ->.
  - cbv zeta. unfold after. rewrite getResponse_run. cbv zeta.
    remember (freeResp (server mach)) as head eqn:Hhead.
    destruct Hlist as [|p r rest Hp Hrest]; simpl.
    + split; [|rewrite <- Hhead; constructor].
      eexists. split; [done|]. apply not_elem_of_dom, is_fresh.
    + split; [done|]. rewrite Hp. simpl.
      apply NoDup_cons in Hnd as [Hnotin _].
      eapply respList_agree; [done|].
      intros q Hq. apply lookup_insert_ne. by intros ->.
Qed.

(** X14. Releasing a request puts it in front of the free list of requests
    and changes its link alone: its route, sequence number, session, payload
    and kind stay as they were, and no other request is touched. *)
Theorem freeRequest_pushes mach p r l :
  requests mach !! p = Some r ->
  reqList (requests mach) (freeReq (server mach)) l ->
  p ∉ l ->
  let mach' := after (OpFreeRequest (Some p)) mach in
  (freeRequest (Some p) mach).1.1 = Done tt /\
  freeReq (server mach') = Some p /\
  requests mach' !! p =
    Some (mkRequest (req_ServiceMethod r) (req_Seq r) (req_Sid r) (req_Args r)
            (req_Kind r) (freeReq (server mach))) /\
  (forall q, q ≠ p -> requests mach' !! q = requests mach !! q) /\
  reqList (requests mach') (freeReq (server mach')) (p :: l).
Proof.
  intros Hr Hlist Hp. simpl.
  split; [done|]. split; [done|].
  split; [by rewrite lookup_alter_eq, Hr|].
  split; [intros q Hq; by apply lookup_alter_ne|].
  econstructor.
  - by rewrite lookup_alter_eq, Hr.
  - simpl. eapply reqList_agree; [done|].
    intros q Hq. apply lookup_alter_ne. by intros ->.
Qed.

(** X15. Releasing the same response twice makes the pool hand it out twice:
    the two acquisitions that follow both return that object. *)
Theorem double_release mach x :
  is_Some (responses mach !! x) ->
  let twice := after (OpFreeResponse (Some x)) (after (OpFreeResponse (Some x)) mach) in
  (getResponse twice).1.1 = Done x /\
  (getResponse (after OpGetResponse twice)).1.1 = Done x.
Proof.
  intros [r Hr]. simpl. rewrite !getResponse_run. simpl.
  split; [done|].
  by rewrite !lookup_alter_eq, Hr.
Qed.

(** *** Locks *)

Lemma balance_app l tr1 tr2 : balance l (tr1 ++ tr2) = (balance l tr1 + balance l tr2)%Z.
Proof.
  induction tr1 as [|e tr1 IH]; [done|].
  destruct e; simpl; rewrite ?IH; lia.
Qed.

Lemma balance_prints l tr : Forall prints tr -> balance l tr = 0%Z.
Proof. induction 1 as [|e tr He _ IH]; [done|]. by destruct e. Qed.

Lemma suitableMethods_prints kind typ reportErr :
  Forall prints (suitableMethods kind typ reportErr).2.
Proof.
  unfold suitableMethods. repeat case_decide; [| |done].
  - apply visit_events; [|done].
    intros m evs. unfold sysMethod, report. intros Hskip.
    repeat case_match; simplify_eq; repeat constructor.
  - apply visit_events; [|done].
    intros m evs. unfold userMethod, report. intros Hskip.
    repeat case_match; simplify_eq; repeat constructor.
Qed.

Lemma register_balance mach rcvr name useName l :
  balance l (register rcvr name useName mach).2 = 0%Z.
Proof.
  destruct (concreteType rcvr) as [t|] eqn:Hc.
  - apply concreteType_Some in Hc as (ty & d & d' & -> & Hind).
    rewrite (register_run _ _ _ _ _ _ _ Hind). cbv zeta.
    repeat case_match; cbn [snd balance]; rewrite ?balance_app;
      rewrite ?(balance_prints _ _ (suitableMethods_prints _ _ _));
      cbn [balance]; repeat case_decide; lia.
  - rewrite register_panics by done. simpl. repeat case_decide; lia.
Qed.

(** X16. Every operation that returns has dropped each lock as often as it
    took it, and [register] has done so even when it panics. Releasing a nil
    request or a nil response panics with the pool's lock still held. *)
Theorem lock_balance op mach l :
  (returns op mach = true -> balance l (actions op mach) = 0%Z) /\
  (forall rcvr name useName, balance l (register rcvr name useName mach).2 = 0%Z) /\
  (freeRequest None mach).1.1 = Panic nilDeref /\
  balance reqLock (freeRequest None mach).2 = 1%Z /\
  (freeResponse None mach).1.1 = Panic nilDeref /\
  balance respLock (freeResponse None mach).2 = 1%Z.
Proof.
  split; [|split; [intros; apply register_balance | done]].
  destruct op as [rcvr name useName|route args|mt|req| |resp]; simpl; intros Hret.
  - apply register_balance.
  - destruct (Call_trace route args mach) as [-> | (mname & args' & ->)]; done.
  - repeat case_decide; lia.
  - destruct req; [|done]. simpl. repeat case_decide; lia.
  - rewrite getResponse_run. cbv zeta. case_match; simpl; repeat case_decide; lia.
  - destruct resp; [|done]. simpl. repeat case_decide; lia.
Qed.

(** X17. The name [Register] derives is that of the concrete type, read
    through a pointer: a pointer and a value of one type, or any two
    receivers whose concrete types share a name, cannot both be registered.
    After the first, [Register] of the second fails with DuplicateService
    and changes nothing. *)
Theorem Register_same_name mach first mach' tr t1 ty2 d2 t2 :
  Register first mach = (Done None, mach', tr) ->
  concreteType first = Some t1 ->
  concreteType (Some (ty2, d2)) = Some t2 ->
  rtype_Name t2 = rtype_Name t1 ->
  Register (Some (ty2, d2)) mach' =
    (Done (Some (DuplicateService (rtype_Name t1))), mach', [EvLock mu; EvUnlock mu]).
Proof.
  unfold Register. intros Hreg Hc1 Hc2 Hname.
  apply register_Done_None in Hreg as (ty & d & t & -> & Hc & Hrest).
  cbv zeta in Hrest. rewrite Hc in Hc1. simplify_eq.
  unfold serviceName in Hrest. destruct Hrest as (Hne & [?|Hexp] & _ & _ & ->); [done|].
  unfold concreteType in Hc2. simpl ValueOf in Hc2.
  destruct (Indirect (Val ty2 d2)) as [|t' d'] eqn:Hind; simplify_eq.
  rewrite (register_run _ _ _ _ _ _ _ Hind). cbv zeta.
  unfold serviceName. rewrite Hname.
  rewrite decide_False by done. rewrite Hexp. simpl.
  rewrite decide_True; [done|]. rewrite lookup_insert_eq. eauto.
Qed.

End Coverage.

Lemma suitableMethods_reportErr_witness :
  EvPrint (rtype_String stringT +:+ " " +:+ rtype_String typeOfBytes)
    ∈ (suitableMethods UserRpc (PtrTo EchoT) false).2.
Proof.
  refine (proj2 (proj2 (proj2 (proj2 (proj2
            (suitableMethods_reportErr UserRpc (PtrTo EchoT))))))
          eq_refl false Echo_Text stringT typeOfError _ eq_refl _ eq_refl _).
  - simpl. unfold programMethods. simpl. apply list_elem_of_further, list_elem_of_here.
  - unfold NumIn. simpl. lia.
  - discriminate.
Defined.

(** On the program, registering [*Echo] in the User namespace writes one line
    to standard output, for [Text], whose first result is a string. *)
Example suitableMethods_stdout_program :
  (suitableMethods UserRpc (PtrTo EchoT) false).2 = [EvPrint "string []uint8"] /\
  (suitableMethods UserRpc (PtrTo EchoT) true).2 =
    [EvPrint "string []uint8"; EvLog "method Text returns string not error"] /\
  (suitableMethods SysRpc (PtrTo EchoT) false).2 = [].
Proof. repeat split; vm_compute; reflexivity. Qed.


(** *** The rest of the package, run on the program *)

Lemma isExportedOrBuiltinType_pointee_witness :
  rtype_Elem handleT = Some ArgsT /\
  isExportedOrBuiltinType handleT = isExportedOrBuiltinType ArgsT.
Proof.
  assert (rtype_Elem handleT = Some ArgsT) as He by reflexivity.
  split; [exact He|].
  exact (isExportedOrBuiltinType_pointee handleT ArgsT He).
Defined.

(** The unexported defined pointer type passes, for its pointee is exported. *)
Example handle_passes :
  isExported (rtype_Name handleT) = false /\ isExportedOrBuiltinType handleT = true.
Proof. by vm_compute. Qed.

Lemma suitableMethods_sound_witness :
  (suitableMethods SysRpc (PtrTo ArithT) true).1 !! "Add" =
    Some (Some (mkMethodType Arith_Add (Some (PtrTo ArgsT)) (Some (PtrTo ReplyT)) 0%N)) /\
  Shape SysRpc Arith_Add.
Proof.
  assert ((suitableMethods SysRpc (PtrTo ArithT) true).1 !! "Add" =
            Some (Some (mkMethodType Arith_Add (Some (PtrTo ArgsT)) (Some (PtrTo ReplyT)) 0%N)))
    as Hadd by reflexivity.
  split; [exact Hadd|].
  destruct (suitableMethods_sound SysRpc (PtrTo ArithT) true "Add" _ Hadd)
    as (mt & Hmt & _ & _ & Hshape & _).
  injection Hmt as <-. exact Hshape.
Defined.

Lemma register_success_witness :
  register echoPtr "" false userMachine =
    (Done None, echoMachine,
     [EvLock mu; EvPrint "string []uint8";
      EvLog "method Text returns string not error"; EvUnlock mu]) /\
  exists s, registered (server echoMachine) "Echo" s /\ rcvr s = ValueOf echoPtr.
Proof.
  assert (register echoPtr "" false userMachine =
            (Done None, echoMachine,
             [EvLock mu; EvPrint "string []uint8";
              EvLog "method Text returns string not error"; EvUnlock mu]))
    as Hreg by reflexivity.
  split; [exact Hreg|].
  destruct (register_success userMachine echoPtr "" false _ _ Hreg)
    as (t & sname & s & Hc & Hname & _ & Hregd & _ & Hrcvr & _).
  exists s. split; [|exact Hrcvr].
  assert (Some EchoT = Some t) as Ht by exact Hc. injection Ht as <-.
  rewrite Hname in Hregd. exact Hregd.
Defined.

Lemma registered_forever_witness :
  registered (server echoMachine) "Echo" echoService /\
  registered
    (server (foldl (fun mach op => after op mach) echoMachine
               [OpCall "Echo.Echo" [hi]; OpGetResponse; OpRegister arithPtr "Echo" true]))
    "Echo" echoService.
Proof.
  assert (registered (server echoMachine) "Echo" echoService) as Hreg by reflexivity.
  split; [exact Hreg|].
  exact (registered_forever
           [OpCall "Echo.Echo" [hi]; OpGetResponse; OpRegister arithPtr "Echo" true]
           echoMachine "Echo" echoService Hreg).
Defined.

Lemma reachable_soundRegistry_witness :
  reachable echoMachine /\ soundRegistry (server echoMachine).
Proof.
  assert (reachable echoMachine) as Hreach.
  { exact (reachable_after (OpRegister echoPtr "" false) userMachine
             (reachable_new UserRpc ∅ ∅ 0)). }
  split; [exact Hreach|].
  exact (proj1 (reachable_soundRegistry echoMachine Hreach)).
Defined.

Lemma no_namespace_no_service_witness :
  reachable noKindMachine /\
  Server_Kind (server noKindMachine) ≠ SysRpc /\
  Server_Kind (server noKindMachine) ≠ UserRpc /\
  (register echoPtr "" false noKindMachine).1.1 ≠ Done None.
Proof.
  assert (reachable noKindMachine) as Hreach by exact (reachable_new 0%N ∅ ∅ 0).
  assert (Server_Kind (server noKindMachine) ≠ SysRpc) as Hsys by (vm_compute; discriminate).
  assert (Server_Kind (server noKindMachine) ≠ UserRpc) as Huser by (vm_compute; discriminate).
  split; [exact Hreach|]. split; [exact Hsys|]. split; [exact Huser|].
  destruct (no_namespace_no_service noKindMachine Hreach Hsys Huser) as (_ & Hfail & _).
  exact (proj1 (Hfail echoPtr "" false)).
Defined.

(** On the server of no namespace even the echo receiver is turned down,
    without a hint. *)
Example no_namespace_program :
  (Register echoPtr noKindMachine).1.1 = Done (Some (NoSuitableMethods "Echo" false)).
Proof. by vm_compute. Qed.

Lemma RegisterName_any_name_witness :
  concreteType echoPtr = Some EchoT /\
  "a.b" ≠ "" /\
  (RegisterName "a.b" echoPtr userMachine).1.1 = Done None.
Proof.
  assert (concreteType echoPtr = Some EchoT) as Hc by reflexivity.
  assert ("a.b" ≠ "") as Hne by discriminate.
  split; [exact Hc|]. split; [exact Hne|].
  refine (proj1 (RegisterName_any_name userMachine "a.b" (PtrTo EchoT) (DPtr (DOther 0))
                   EchoT Hc Hne eq_refl _)).
  vm_compute. discriminate.
Defined.

Lemma register_then_Call_witness :
  register echoPtr "" false userMachine =
    (Done None, echoMachine,
     [EvLock mu; EvPrint "string []uint8";
      EvLog "method Text returns string not error"; EvUnlock mu]) /\
  Shape UserRpc Echo_Echo /\
  Call "Echo.Echo" [hi] echoMachine =
    (Done ([hi; nilError], None), withWorld echoMachine 1,
     [EvCall "Echo" [ValueOf echoPtr; hi]]).
Proof.
  assert (register echoPtr "" false userMachine =
            (Done None, echoMachine,
             [EvLock mu; EvPrint "string []uint8";
              EvLog "method Text returns string not error"; EvUnlock mu]))
    as Hreg by reflexivity.
  assert (Shape UserRpc Echo_Echo) as Hshape.
  { right. split; [reflexivity|]. split; [reflexivity|]. split; [|reflexivity].
    simpl. unfold NumIn. simpl. lia. }
  split; [exact Hreg|]. split; [exact Hshape|].
  refine (register_then_Call userMachine echoPtr "" false echoMachine _ EchoT (PtrTo EchoT)
            Echo_Echo [hi] Hreg eq_refl eq_refl _ _ Hshape eq_refl eq_refl).
  - apply (bool_decide_unpack _). vm_compute. exact I.
  - simpl. unfold programMethods. simpl. apply list_elem_of_here.
Defined.

(** The machine with the used response released. *)
Lemma response_pool_stack_witness :
  let released := after (OpFreeResponse (Some 1%positive)) usedMachine in
  respList (responses released) (freeResp (server released)) [1%positive] /\
  NoDup [1%positive] /\
  (getResponse released).1.1 = Done 1%positive.
Proof.
  cbv zeta.
  assert (respList (responses (after (OpFreeResponse (Some 1%positive)) usedMachine))
            (freeResp (server (after (OpFreeResponse (Some 1%positive)) usedMachine)))
            [1%positive]) as Hlist.
  { vm_compute. eapply (respList_cons _ 1%positive _ []); [reflexivity|]. apply respList_nil. }
  assert (NoDup [1%positive]) as Hnd.
  { apply NoDup_cons. split; [apply not_elem_of_nil | apply NoDup_nil_2]. }
  split; [exact Hlist|]. split; [exact Hnd|].
  exact (proj1 (proj2 (response_pool_stack _ _ Hlist Hnd))).
Defined.

Lemma freeRequest_pushes_witness :
  requests requestMachine !! 1%positive = Some usedRequest /\
  reqList (requests requestMachine) (freeReq (server requestMachine)) [] /\
  (1%positive ∉ @nil loc) /\
  requests (after (OpFreeRequest (Some 1%positive)) requestMachine) !! 1%positive =
    Some usedRequest.
Proof.
  assert (requests requestMachine !! 1%positive = Some usedRequest) as Hr by reflexivity.
  assert (reqList (requests requestMachine) (freeReq (server requestMachine)) []) as Hlist.
  { vm_compute. apply reqList_nil. }
  assert (1%positive ∉ @nil loc) as Hp by apply not_elem_of_nil.
  split; [exact Hr|]. split; [exact Hlist|]. split; [exact Hp|].
  destruct (freeRequest_pushes requestMachine 1%positive usedRequest [] Hr Hlist Hp)
    as (_ & _ & Hkept & _).
  exact Hkept.
Defined.

Lemma double_release_witness :
  is_Some (responses usedMachine !! 1%positive) /\
  let twice := after (OpFreeResponse (Some 1%positive))
                 (after (OpFreeResponse (Some 1%positive)) usedMachine) in
  (getResponse twice).1.1 = Done 1%positive /\
  (getResponse (after OpGetResponse twice)).1.1 = Done 1%positive.
Proof.
  assert (is_Some (responses usedMachine !! 1%positive)) as Hx.
  { exists used. reflexivity. }
  split; [exact Hx|].
  exact (double_release usedMachine 1%positive Hx).
Defined.

Lemma Register_same_name_witness :
  Register echoPtr userMachine =
    (Done None, echoMachine,
     [EvLock mu; EvPrint "string []uint8";
      EvLog "method Text returns string not error"; EvUnlock mu]) /\
  concreteType echoPtr = Some EchoT /\
  concreteType echoValue = Some EchoT /\
  Register echoValue echoMachine =
    (Done (Some (DuplicateService "Echo")), echoMachine, [EvLock mu; EvUnlock mu]).
Proof.
  assert (Register echoPtr userMachine =
            (Done None, echoMachine,
             [EvLock mu; EvPrint "string []uint8";
              EvLog "method Text returns string not error"; EvUnlock mu]))
    as Hreg by reflexivity.
  assert (concreteType echoPtr = Some EchoT) as Hc1 by reflexivity.
  assert (concreteType echoValue = Some EchoT) as Hc2 by reflexivity.
  split; [exact Hreg|]. split; [exact Hc1|]. split; [exact Hc2|].
  exact (Register_same_name userMachine echoPtr echoMachine _ EchoT EchoT (DOther 0) EchoT
           Hreg Hc1 Hc2 eq_refl).
Defined.
